(** * Amazon bestseller scraper: a shallow embedding of [app.py]

    The development follows the layout of the program:
    - [PyStr]: the few Python string operations the scraper relies on
      ([str.lower], [in], slicing, and the regular expression of
      [convert_to_affiliate_link]);
    - [Store]: [DatabaseManager], the two tables as lists of rows and each
      method as a transaction on them;
    - [Scraper]: [AmazonScraper], with the HTTP transport, the HTML query
      interface and [urljoin] taken as parameters of a section.

    Characters are [ascii] values read as code points 0..255 and a Python
    [str] is a [string] of them.  Calls of [print] are left out; the
    events kept are the sleeps and the requests.  Connections to the
    database are taken to open. *)

From Stdlib Require Import String Ascii List ZArith NArith Lia Bool Arith.
From Stdlib Require Import Permutation Sorted.
Import ListNotations.

Local Open Scope string_scope.

(* ===================================================================== *)
(** ** Python strings *)
(* ===================================================================== *)

Module PyStr.

(** [between lo hi c]: the code point of [c] lies in [lo..hi]. *)
Definition between (lo hi c : ascii) : bool :=
  (N_of_ascii lo <=? N_of_ascii c)%N && (N_of_ascii c <=? N_of_ascii hi)%N.

(** [str.lower] on one character: [A-Z], and the Latin-1 capitals
    U+00C0..U+00DE except the multiplication sign U+00D7, move up by 32. *)
Definition lower_char (c : ascii) : ascii :=
  if between "A" "Z" c then ascii_of_N (N_of_ascii c + 32)
  else if between "192" "222" c && negb (Ascii.eqb c "215")
       then ascii_of_N (N_of_ascii c + 32)
       else c.

Fixpoint lower (s : string) : string :=
  match s with
  | EmptyString => EmptyString
  | String c s' => String (lower_char c) (lower s')
  end.

(** [sub in s]. *)
Fixpoint contains (sub s : string) : bool :=
  if prefix sub s then true
  else match s with
       | EmptyString => false
       | String _ s' => contains sub s'
       end.

(** [s[:n]]. *)
Fixpoint take (n : nat) (s : string) : string :=
  match n, s with
  | S n', String c s' => String c (take n' s')
  | _, _ => EmptyString
  end.

(** [s[n:]]. *)
Fixpoint drop (n : nat) (s : string) : string :=
  match n, s with
  | S n', String _ s' => drop n' s'
  | _, _ => s
  end.

Fixpoint all_chars (p : ascii -> bool) (s : string) : bool :=
  match s with
  | EmptyString => true
  | String c s' => p c && all_chars p s'
  end.

(** [s] holds the character of code 0. *)
Fixpoint has_nul (s : string) : bool :=
  match s with
  | EmptyString => false
  | String c s' => Ascii.eqb c "000" || has_nul s'
  end.

(** The character class [[A-Z0-9]]. *)
Definition asin_char (c : ascii) : bool :=
  between "A" "Z" c || between "0" "9" c.

(** [[A-Z0-9]{n}] anchored at the head of [s]: the [n] characters read. *)
Fixpoint read_class (p : ascii -> bool) (n : nat) (s : string) : option string :=
  match n with
  | O => Some EmptyString
  | S n' =>
      match s with
      | EmptyString => None
      | String c s' =>
          if p c then option_map (String c) (read_class p n' s') else None
      end
  end.

(** [/dp/([A-Z0-9]{10})] anchored at the head of [s]: group 1. *)
Definition match_asin_here (s : string) : option string :=
  if prefix "/dp/" s then read_class asin_char 10 (drop 4 s) else None.

(** [re.search(r'/dp/([A-Z0-9]{10})', s)]: group 1 of the leftmost match. *)
Fixpoint search_asin (s : string) : option string :=
  match match_asin_here s with
  | Some a => Some a
  | None =>
      match s with
      | EmptyString => None
      | String _ s' => search_asin s'
      end
  end.

(** An ASIN: ten characters of the class. *)
Definition is_asin (a : string) : Prop :=
  String.length a = 10 /\ all_chars asin_char a = true.

(** [a] is the identifier of the leftmost [/dp/] followed by ten
    characters of the class in [s]. *)
Definition leftmost_asin (s a : string) : Prop :=
  exists pre post,
    s = pre ++ "/dp/" ++ a ++ post /\ is_asin a /\
    forall pre' a' post',
      s = pre' ++ "/dp/" ++ a' ++ post' -> is_asin a' ->
      String.length pre <= String.length pre'.

(** The reading of the identifier segment with its closing slash,
    [/dp/<10 uppercase-alphanumeric chars>/], anchored at the head of [s]. *)
Definition match_segment_here (s : string) : bool :=
  match match_asin_here s with
  | Some _ => prefix "/" (drop 14 s)
  | None => false
  end.

(** [s] holds such a segment somewhere. *)
Fixpoint has_dp_segment (s : string) : bool :=
  match_segment_here s ||
  match s with
  | EmptyString => false
  | String _ s' => has_dp_segment s'
  end.

End PyStr.

(* ===================================================================== *)
(** ** Python values shared by the two classes *)
(* ===================================================================== *)

(** The exceptions of [requests.RequestException]'s family, the only ones
    the transport raises. *)
Inductive RequestException : Type :=
  | ConnectionError (msg : string)
  | Timeout (msg : string)
  | HTTPError (status_code : Z).

Inductive exn : Type :=
  | RequestError (e : RequestException)
  | ValueError (msg : string)
  | AttributeError (msg : string)
  | IntegrityError (msg : string)
  | DataError (msg : string)
  | TypeError (msg : string)
  | UnsupportedMediaType (msg : string).

(** The outcome of a call that may raise. *)
Inductive result (A : Type) : Type :=
  | Ok (a : A)
  | Raise (e : exn).
Arguments Ok {A} a.
Arguments Raise {A} e.

(** State and exceptions threaded through the calls of a method. *)
Definition M (S A : Type) : Type := S -> result A * S.

Definition ret {S A} (a : A) : M S A := fun s => (Ok a, s).

Definition bind {S A B} (m : M S A) (k : A -> M S B) : M S B :=
  fun s => match m s with
           | (Ok a, s') => k a s'
           | (Raise e, s') => (Raise e, s')
           end.

Definition raise {S A} (e : exn) : M S A := fun s => (Raise e, s).

(** [try: m  except Exception: h]. *)
Definition try_except {S A} (m : M S A) (h : exn -> M S A) : M S A :=
  fun s => match m s with
           | (Ok a, s') => (Ok a, s')
           | (Raise e, s') => h e s'
           end.

Declare Scope monad_scope.
Delimit Scope monad_scope with monad.
Notation "x <- m ;; k" := (bind m (fun x => k))
  (at level 61, m at next level, right associativity) : monad_scope.
Notation "m ;;; k" := (bind m (fun _ => k))
  (at level 61, right associativity) : monad_scope.

(** [enumerate(l, start)]. *)
Fixpoint enumerate {A} (start : Z) (l : list A) : list (Z * A) :=
  match l with
  | [] => []
  | x :: l' => (start, x) :: enumerate (start + 1) l'
  end.

(** [range(n)]. *)
Definition range (n : Z) : list Z := map Z.of_nat (seq 0 (Z.to_nat n)).

(** [l[:n]], with Python's reading of a negative bound. *)
Definition slice_to {A} (n : Z) (l : list A) : list A :=
  if (0 <=? n)%Z then firstn (Z.to_nat n) l
  else firstn (length l - Z.to_nat (- n)) l.

(** The dictionary built by [extract_product_info]. *)
Record ProductInfo : Type := {
  pi_title : string;
  pi_url : string;
  pi_summary : string;
  pi_rank : Z
}.

(** Timestamps, in microseconds. *)
Definition timestamp : Type := Z.

Definition hours (h : Z) : Z := (h * 3600000000)%Z.

(* ===================================================================== *)
(** ** [DatabaseManager] *)
(* ===================================================================== *)

Module Store.

(** A row of [categories]. *)
Record Category : Type := {
  cat_id : Z;
  cat_name : string;
  cat_href : string;
  cat_last_scraped : option timestamp;
  cat_created_at : timestamp
}.

(** A row of [products]; [summary] and [rank] are nullable columns. *)
Record Product : Type := {
  prod_id : Z;
  prod_category_id : Z;
  prod_title : string;
  prod_affiliate_link : string;
  prod_summary : option string;
  prod_rank : option Z;
  prod_last_updated : timestamp;
  prod_created_at : timestamp
}.

(** The committed contents of the database: both tables in row order and
    the last value of the [products.id] sequence. *)
Record DB : Type := {
  categories : list Category;
  products : list Product;
  products_id_seq : Z
}.

(** The statements the methods below send through a cursor. *)
Inductive Stmt : Type :=
  | DeleteProducts (category_id : Z)
  | InsertProduct (category_id : Z) (title url summary : string) (rank : Z)
  | UpdateScraped (category_id : Z).

Definition category_exists (category_id : Z) (db : DB) : bool :=
  existsb (fun c => (cat_id c =? category_id)%Z) (categories db).

Definition stamp (now : timestamp) (category_id : Z) (c : Category) : Category :=
  if (cat_id c =? category_id)%Z
  then {| cat_id := cat_id c; cat_name := cat_name c; cat_href := cat_href c;
          cat_last_scraped := Some now; cat_created_at := cat_created_at c |}
  else c.

(** The values of an [INTEGER] column. *)
Definition is_int4 (z : Z) : bool :=
  ((-2147483648 <=? z) && (z <=? 2147483647))%Z.

(** One statement on the working copy of a transaction started at [now].
    An insert is refused by the driver when one of its strings holds a NUL
    character, and by the server when [category_id] or [rank] is no
    [INTEGER]; otherwise it draws its id from the sequence, and then the
    foreign key on [category_id] is checked. *)
Definition exec (now : timestamp) (s : Stmt) : M DB unit :=
  fun db =>
    match s with
    | DeleteProducts cid =>
        (Ok tt,
         {| categories := categories db;
            products := filter (fun p => negb (prod_category_id p =? cid)%Z) (products db);
            products_id_seq := products_id_seq db |})
    | InsertProduct cid title url summary rank =>
        let id := (products_id_seq db + 1)%Z in
        if PyStr.has_nul title || PyStr.has_nul url || PyStr.has_nul summary
        then (Raise (ValueError "A string literal cannot contain NUL (0x00) characters."),
              db)
        else if negb (is_int4 cid && is_int4 rank)
        then (Raise (DataError "integer out of range"), db)
        else if category_exists cid db
        then (Ok tt,
              {| categories := categories db;
                 products := products db ++
                   [{| prod_id := id; prod_category_id := cid; prod_title := title;
                       prod_affiliate_link := url; prod_summary := Some summary;
                       prod_rank := Some rank; prod_last_updated := now;
                       prod_created_at := now |}];
                 products_id_seq := id |})
        else (Raise (IntegrityError "products_category_id_fkey"),
              {| categories := categories db; products := products db;
                 products_id_seq := id |})
    | UpdateScraped cid =>
        (Ok tt,
         {| categories := map (stamp now cid) (categories db);
            products := products db;
            products_id_seq := products_id_seq db |})
    end.

Fixpoint exec_all (now : timestamp) (stmts : list Stmt) : M DB unit :=
  match stmts with
  | [] => ret tt
  | s :: rest => (exec now s ;;; exec_all now rest)%monad
  end.

(** [with conn: ... conn.commit()]: the statements run on a working copy
    that is committed as a whole, or dropped when one of them raises
    (sequence values drawn meanwhile are not given back). *)
Definition transaction (now : timestamp) (stmts : list Stmt) : M DB unit :=
  fun db =>
    match exec_all now stmts db with
    | (Ok tt, db') => (Ok tt, db')
    | (Raise e, db') =>
        (Raise e,
         {| categories := categories db; products := products db;
            products_id_seq := products_id_seq db' |})
    end.

(** [SELECT * FROM categories WHERE id = %s], [fetchone()]. *)
Definition get_category_by_id (category_id : Z) (db : DB) : option Category :=
  find (fun c => (cat_id c =? category_id)%Z) (categories db).

Definition update_category_scraped (now : timestamp) (category_id : Z) : M DB unit :=
  transaction now [UpdateScraped category_id].

Definition insert_stmt (category_id : Z) (rp : Z * ProductInfo) : Stmt :=
  let (rank, product) := rp in
  InsertProduct category_id (pi_title product) (pi_url product)
                (pi_summary product) rank.

Definition insert_products (now : timestamp) (category_id : Z)
    (products : list ProductInfo) : M DB unit :=
  transaction now
    (DeleteProducts category_id
       :: map (insert_stmt category_id) (enumerate 1 products)).

(** Insertion into a list sorted by [le], after the rows that compare
    equal. *)
Fixpoint insert_by {A} (le : A -> A -> bool) (x : A) (l : list A) : list A :=
  match l with
  | [] => [x]
  | y :: l' => if le y x then y :: insert_by le x l' else x :: l
  end.

Definition sort_by {A} (le : A -> A -> bool) (l : list A) : list A :=
  fold_right (insert_by le) [] l.

(** [ORDER BY k ASC NULLS FIRST]. *)
Definition nulls_first_le (a b : option Z) : bool :=
  match a, b with
  | None, _ => true
  | Some _, None => false
  | Some x, Some y => (x <=? y)%Z
  end.

(** [ORDER BY k] (ascending, nulls last). *)
Definition nulls_last_le (a b : option Z) : bool :=
  match a, b with
  | _, None => true
  | None, Some _ => false
  | Some x, Some y => (x <=? y)%Z
  end.

(** The rows of [products] that belong to a category, in table order. *)
Definition products_of (category_id : Z) (db : DB) : list Product :=
  filter (fun p => (prod_category_id p =? category_id)%Z) (products db).

Definition get_products_by_category (category_id : Z) (db : DB) : list Product :=
  sort_by (fun p q => nulls_last_le (prod_rank p) (prod_rank q))
          (products_of category_id db).

(** [last_scraped IS NULL OR last_scraped < NOW() - INTERVAL 'h hours']. *)
Definition needs_update (now : timestamp) (hours_old : Z) (c : Category) : bool :=
  match cat_last_scraped c with
  | None => true
  | Some t => (t <? now - hours hours_old)%Z
  end.

(** Rows with equal keys come out in table order; SQL leaves their order
    open. *)
Definition get_categories_needing_update (now : timestamp) (hours_old : Z)
    (db : DB) : list Category :=
  sort_by (fun c d => nulls_first_le (cat_last_scraped c) (cat_last_scraped d))
          (filter (needs_update now hours_old) (categories db)).

Definition default_hours_old : Z := 24.

(** Ascending order of timestamps with null below every timestamp. *)
Definition nulls_first (a b : option timestamp) : Prop :=
  match a, b with
  | None, _ => True
  | Some _, None => False
  | Some x, Some y => (x <= y)%Z
  end.

(** The rows a run of inserts adds after the sequence value [last_id]. *)
Fixpoint new_rows (now : timestamp) (category_id last_id : Z)
    (ranked : list (Z * ProductInfo)) : list Product :=
  match ranked with
  | [] => []
  | (rank, product) :: rest =>
      {| prod_id := last_id + 1; prod_category_id := category_id;
         prod_title := pi_title product; prod_affiliate_link := pi_url product;
         prod_summary := Some (pi_summary product); prod_rank := Some rank;
         prod_last_updated := now; prod_created_at := now |}
      :: new_rows now category_id (last_id + 1) rest
  end.

(** None of the strings of the record holds a NUL character. *)
Definition clean (product : ProductInfo) : bool :=
  negb (PyStr.has_nul (pi_title product) || PyStr.has_nul (pi_url product)
        || PyStr.has_nul (pi_summary product)).

(** The inserts of the ranked records pass every check: the category is
    there, ids and ranks are [INTEGER] values and the records are clean. *)
Definition acceptable (category_id : Z) (ranked : list (Z * ProductInfo))
    (db : DB) : Prop :=
  category_exists category_id db = true /\
  is_int4 category_id = true /\
  Forall (fun rp => is_int4 (fst rp) = true /\ clean (snd rp) = true) ranked.



End Store.

(* ===================================================================== *)
(** ** [AmazonScraper] *)
(* ===================================================================== *)

Module Scraper.

Import PyStr.

(** What [requests] hands back for one GET. *)
Record Response : Type := {
  status_code : Z;
  content : string
}.

Inductive Outcome : Type :=
  | Responded (r : Response)
  | Failed (e : RequestException).

(** What the process does to the outside, in order. *)
Inductive Event : Type :=
  | ESleep (lo hi : Z)
  | EGet (url : string).

(** The world the scraper runs in: wall clock, number of random draws and
    of requests made so far, and the events so far. *)
Record World : Type := {
  w_clock : timestamp;
  w_draws : nat;
  w_sent : nat;
  w_log : list Event
}.

(** The program state: the database and the world. *)
Record State : Type := {
  st_db : Store.DB;
  st_world : World
}.

(** The part of a [bs4] tag the scraper reads: [get_text(strip=True)]. *)
Record Element : Type := { get_text : string }.

(** An anchor found by [find('a', href=True)]. *)
Record Anchor : Type := { href : string }.

(** A product block: its first anchor with an [href], and [select_one]. *)
Record Block : Type := {
  find_a : option Anchor;
  select_one : string -> option Element
}.

(** A parsed page: [select], and the scan
    [find_all(['div', 'li'], class_=re.compile('.*item.*|.*product.*', re.I))]. *)
Record Soup : Type := {
  select : string -> list Block;
  find_all_item_or_product : list Block
}.

Definition base_url : string := "https://www.amazon.com".
Definition default_affiliate_tag : string := "your-tag-20".
Definition no_title : string := "No title available".
Definition no_description : string := "No description available".
Definition default_retries : Z := 3.
Definition default_limit : Z := 10.

(** The selector lists, in the program's order; the quotation marks inside
    attribute selectors are left out of the keys. *)
Definition title_selectors : list string :=
  [ "h2"; "span[class*=title]"; ".s-title-instructions-style";
    "a[class*=title]"; ".a-text-normal" ].

Definition desc_selectors : list string :=
  [ ".a-size-small"; ".a-color-secondary";
    "span[class*=review]"; "span[class*=rating]";
    ".a-text-subtle" ].

Definition product_selectors : list string :=
  [ "li[id^=zg-ordered-list]"; ".zg-item-immersion";
    "div[data-component-type=s-search-result]"; ".s-result-item";
    "li[class*=zg-item]" ].

Definition convert_to_affiliate_link (product_url affiliate_tag : string) : string :=
  match search_asin product_url with
  | Some asin => "https://www.amazon.com/dp/" ++ asin ++ "?tag=" ++ affiliate_tag
  | None => product_url
  end.

(** [response.raise_for_status()]: a 4xx or 5xx status raises. *)
Definition raise_for_status (r : Response) : result unit :=
  if ((400 <=? status_code r) && (status_code r <? 600))%Z
  then Raise (RequestError (HTTPError (status_code r)))
  else Ok tt.

(** [len(s)] as a Python integer. *)
Definition len (s : string) : Z := Z.of_nat (String.length s).

(** Truth value of a [str]. *)
Definition truthy (s : string) : bool := negb (String.eqb s "").

(** [title and len(title) > 3]. *)
Definition title_ok (title : string) : bool :=
  truthy title && (3 <? len title)%Z.

(** The title loop: [title] is assigned before the candidate is judged. *)
Fixpoint title_loop (product_element : Block) (selectors : list string)
    (title : string) : string :=
  match selectors with
  | [] => title
  | selector :: rest =>
      match select_one product_element selector with
      | Some title_elem =>
          let title := get_text title_elem in
          if title_ok title then title
          else title_loop product_element rest title
      | None => title_loop product_element rest title
      end
  end.

Definition summary_ok (desc_text : string) : bool :=
  truthy desc_text && (10 <? len desc_text)%Z
  && negb (contains "stars" (lower desc_text)).

Definition clip (desc_text : string) : string :=
  if (200 <? len desc_text)%Z then take 200 desc_text ++ "..." else desc_text.

(** The summary loop: [summary] is assigned only on acceptance. *)
Fixpoint summary_loop (product_element : Block) (selectors : list string)
    (summary : string) : string :=
  match selectors with
  | [] => summary
  | selector :: rest =>
      match select_one product_element selector with
      | Some desc_elem =>
          let desc_text := get_text desc_elem in
          if summary_ok desc_text then clip desc_text
          else summary_loop product_element rest summary
      | None => summary_loop product_element rest summary
      end
  end.

Section WithEnvironment.

(** The outcome of the [n]-th GET the process sends (timeout 15 s, the
    session's headers), for the URL asked. *)
Variable http_get : nat -> string -> Outcome.

(** The [k]-th draw of [random.uniform(lo, hi)], in microseconds. *)
Variable uniform : nat -> Z -> Z -> Z.

(** [urllib.parse.urljoin], which raises [ValueError] on some inputs. *)
Variable urljoin : string -> string -> result string.

(** [BeautifulSoup(content, 'html.parser')]. *)
Variable BeautifulSoup : string -> Soup.

(** [time.sleep(random.uniform(lo, hi))]. *)
Definition sleep (lo hi : Z) : M World unit :=
  fun w =>
    (Ok tt,
     {| w_clock := (w_clock w + uniform (w_draws w) lo hi)%Z;
        w_draws := S (w_draws w);
        w_sent := w_sent w;
        w_log := w_log w ++ [ESleep lo hi] |}).

(** [self.session.get(url, timeout=15)]. *)
Definition session_get (url : string) : M World Response :=
  fun w =>
    let w' := {| w_clock := w_clock w; w_draws := w_draws w;
                 w_sent := S (w_sent w); w_log := w_log w ++ [EGet url] |} in
    match http_get (w_sent w) url with
    | Responded r => (Ok r, w')
    | Failed e => (Raise (RequestError e), w')
    end.

(** The body of the [try] in [get_page]. *)
Definition attempt_once (url : string) : M World Response :=
  (sleep 2 5 ;;;
   response <- session_get url ;;
   (fun w => match raise_for_status response with
             | Ok _ => (Ok response, w)
             | Raise e => (Raise e, w)
             end))%monad.

(** The exception an attempt with this outcome ends in, if any. *)
Definition failure_of (o : Outcome) : option RequestException :=
  match o with
  | Failed e => Some e
  | Responded r =>
      match raise_for_status r with
      | Raise (RequestError e) => Some e
      | _ => None
      end
  end.

(** What the body of the [try] makes of an outcome. *)
Definition attempt_result (o : Outcome) : result Response :=
  match o with
  | Failed e => Raise (RequestError e)
  | Responded r =>
      match raise_for_status r with
      | Ok _ => Ok r
      | Raise e => Raise e
      end
  end.

(** The events of [k] failed attempts that are followed by another one. *)
Fixpoint rounds (k : nat) (url : string) : list Event :=
  match k with
  | O => []
  | S k' => ESleep 2 5 :: EGet url :: ESleep 3 7 :: rounds k' url
  end.

(** [except requests.RequestException]. *)
Definition is_request_exception (e : exn) : bool :=
  match e with
  | RequestError _ => true
  | _ => false
  end.

(** The [for attempt in range(retries)] loop; running off its end returns
    [None]. *)
Fixpoint get_page_loop (url : string) (retries : Z) (attempts : list Z)
    : M World (option Response) :=
  match attempts with
  | [] => ret None
  | attempt :: rest =>
      fun w =>
        match attempt_once url w with
        | (Ok response, w') => (Ok (Some response), w')
        | (Raise e, w') =>
            if is_request_exception e then
              if (attempt =? retries - 1)%Z then (Raise e, w')
              else (sleep 3 7 ;;; get_page_loop url retries rest)%monad w'
            else (Raise e, w')
        end
  end.

Definition get_page (url : string) (retries : Z) : M World (option Response) :=
  get_page_loop url retries (range retries).

(** The body of the [try] in [extract_product_info]. *)
Definition extract_product_info_try (product_element : Block) (rank : Z)
    : result (option ProductInfo) :=
  match find_a product_element with
  | None => Ok None
  | Some link_elem =>
      match urljoin base_url (href link_elem) with
      | Raise e => Raise e
      | Ok product_url =>
          let affiliate_url :=
            convert_to_affiliate_link product_url default_affiliate_tag in
          let title := title_loop product_element title_selectors no_title in
          let summary :=
            summary_loop product_element desc_selectors no_description in
          Ok (Some {| pi_title := title; pi_url := affiliate_url;
                      pi_summary := summary; pi_rank := rank |})
      end
  end.

Definition extract_product_info (product_element : Block) (rank : Z)
    : option ProductInfo :=
  match extract_product_info_try product_element rank with
  | Ok r => r
  | Raise _ => None
  end.

(** The first selector with a match decides, and its matches are cut to
    [limit]. *)
Fixpoint locate (soup : Soup) (selectors : list string) (limit : Z) : list Block :=
  match selectors with
  | [] => []
  | selector :: rest =>
      match select soup selector with
      | [] => locate soup rest limit
      | elements => slice_to limit elements
      end
  end.

Definition product_elements_of (soup : Soup) (limit : Z) : list Block :=
  match locate soup product_selectors limit with
  | [] => slice_to limit (find_all_item_or_product soup)
  | product_elements => product_elements
  end.

(** [if product_info and product_info['title'] != "No title available"]. *)
Definition accepted (product_info : option ProductInfo) : option ProductInfo :=
  match product_info with
  | Some info => if String.eqb (pi_title info) no_title then None else Some info
  | None => None
  end.

(** The [for i, element in enumerate(product_elements)] loop. *)
Fixpoint collect (limit : Z) (elements : list (Z * Block))
    (products : list ProductInfo) : list ProductInfo :=
  match elements with
  | [] => products
  | (i, element) :: rest =>
      let products :=
        match accepted (extract_product_info element (i + 1)) with
        | Some product_info => (products ++ [product_info])%list
        | None => products
        end in
      if (limit <=? Z.of_nat (length products))%Z then products
      else collect limit rest products
  end.

(** The records of the accepted blocks, each with the rank it was
    enumerated at. *)
Definition records (elements : list (Z * Block)) : list ProductInfo :=
  flat_map (fun ie => match accepted (extract_product_info (snd ie) (fst ie + 1)) with
                      | Some product_info => [product_info]
                      | None => []
                      end) elements.

(** What the extractor does with a parsed page. *)
Definition extract (soup : Soup) (limit : Z) : list ProductInfo :=
  collect limit (enumerate 0 (product_elements_of soup limit)) [].

(** The body of the [try] in [scrape_category_products]. *)
Definition scrape_category_products_try (category_href : string) (limit : Z)
    : M World (list ProductInfo) :=
  fun w =>
    match urljoin base_url category_href with
    | Raise e => (Raise e, w)
    | Ok full_url =>
        match get_page full_url default_retries w with
        | (Raise e, w') => (Raise e, w')
        | (Ok None, w') =>
            (Raise (AttributeError "'NoneType' object has no attribute 'content'"), w')
        | (Ok (Some response), w') =>
            (Ok (extract (BeautifulSoup (content response)) limit), w')
        end
    end.

Definition scrape_category_products (category_href : string) (limit : Z)
    : World -> list ProductInfo * World :=
  fun w =>
    match scrape_category_products_try category_href limit w with
    | (Ok products, w') => (products, w')
    | (Raise _, w') => ([], w')
    end.

(** The blocks the loop of [scrape_category_products] runs over: those
    located in the page fetched, none when the fetch raises. *)
Definition located_blocks (category_href : string) (limit : Z) (w : World)
    : list Block :=
  match urljoin base_url category_href with
  | Raise _ => []
  | Ok full_url =>
      match get_page full_url default_retries w with
      | (Ok (Some response), _) =>
          product_elements_of (BeautifulSoup (content response)) limit
      | _ => []
      end
  end.

(** A store method run against the database of the state, at the time the
    world's clock shows. *)
Definition on_db {A} (m : timestamp -> M Store.DB A) : M State A :=
  fun st =>
    match m (w_clock (st_world st)) (st_db st) with
    | (r, db') => (r, {| st_db := db'; st_world := st_world st |})
    end.

Definition scrape_and_store_category (category_id : Z) : M State bool :=
  fun st =>
    match Store.get_category_by_id category_id (st_db st) with
    | None => (Ok false, st)
    | Some category =>
        let (products, w') :=
          scrape_category_products (Store.cat_href category) default_limit
                                   (st_world st) in
        let st' := {| st_db := st_db st; st_world := w' |} in
        match products with
        | [] => (Ok false, st')
        | _ :: _ =>
            (on_db (fun now => Store.insert_products now category_id products) ;;;
             on_db (fun now => Store.update_category_scraped now category_id) ;;;
             ret true)%monad st'
        end
    end.

End WithEnvironment.

(** [t] holds the word stars in some letter case. *)
Definition mentions_stars (t : string) : Prop :=
  exists pre mid post, t = pre ++ mid ++ post /\ lower mid = "stars".

(** No candidate of the list passes the title test on this block. *)
Definition no_title_candidate (product_element : Block) (selectors : list string) : bool :=
  forallb (fun selector =>
             match select_one product_element selector with
             | Some title_elem => negb (title_ok (get_text title_elem))
             | None => true
             end) selectors.

(** Ranks that count the records of a list from 1 without a gap. *)
Definition ranks_contiguous (products : list ProductInfo) : Prop :=
  map pi_rank products = map Z.of_nat (seq 1 (length products)).

(** A status in 200..299. *)
Definition is_2xx (r : Response) : bool :=
  ((200 <=? status_code r) && (status_code r <? 300))%Z.

End Scraper.

(* ===================================================================== *)
(** ** Concrete pages, transports and databases *)
(* ===================================================================== *)

Module Examples.

Import Scraper.

Definition elem (t : string) : option Element := Some {| get_text := t |}.

Fixpoint replicate (n : nat) (c : ascii) : string :=
  match n with
  | O => EmptyString
  | S n' => String c (replicate n' c)
  end.

Definition text_200 : string := replicate 200 "a".
Definition text_201 : string := replicate 201 "a".

(** A block with a heading and no anchor. *)
Definition block_no_anchor : Block :=
  {| find_a := None;
     select_one := fun sel =>
       if String.eqb sel "h2" then elem "Kindle Paperwhite" else None |}.

(** A block with an anchor, a heading, a star-rating line and a
    description. *)
Definition block_echo : Block :=
  {| find_a := Some {| href := "/Echo-Dot/dp/B08N5WRWNW/ref=zg_bs_1" |};
     select_one := fun sel =>
       if String.eqb sel "h2" then elem "Echo Dot (4th Gen)"
       else if String.eqb sel ".a-size-small" then elem "4.7 out of 5 Stars"
       else if String.eqb sel ".a-color-secondary" then elem "Smart speaker with Alexa"
       else None |}.

(** A block whose only title candidate is two characters long. *)
Definition block_short_title : Block :=
  {| find_a := Some {| href := "/dp/B08N5WRWNW" |};
     select_one := fun sel =>
       if String.eqb sel "h2" then elem "Hi" else None |}.

(** A block whose anchor holds a malformed host. *)
Definition block_bad_href : Block :=
  {| find_a := Some {| href := "//[" |};
     select_one := fun sel =>
       if String.eqb sel "h2" then elem "Fire TV Stick" else None |}.

Definition soup_listing : Soup :=
  {| select := fun sel =>
       if String.eqb sel ".zg-item-immersion"
       then [block_no_anchor; block_echo] else [];
     find_all_item_or_product := [] |}.

Definition soup_with_bad_href : Soup :=
  {| select := fun sel =>
       if String.eqb sel ".s-result-item"
       then [block_echo; block_bad_href; block_echo] else [];
     find_all_item_or_product := [] |}.

Definition soup_empty : Soup :=
  {| select := fun _ => []; find_all_item_or_product := [] |}.

(** [urljoin] on the inputs used here: an absolute path is put behind the
    base, and an unclosed bracket in the host raises. *)
Definition urljoin_paths (base url : string) : result string :=
  if prefix "//[" url then Raise (ValueError "Invalid IPv6 URL")
  else Ok (base ++ url).

(** The parser, by page content. *)
Definition parse (content : string) : Soup :=
  if String.eqb content "listing" then soup_listing
  else if String.eqb content "bad-href" then soup_with_bad_href
  else soup_empty.

Definition respond (status : Z) (body : string) : Outcome :=
  Responded {| status_code := status; content := body |}.

Definition http_listing : nat -> string -> Outcome :=
  fun _ _ => respond 200 "listing".

Definition http_bad_href : nat -> string -> Outcome :=
  fun _ _ => respond 200 "bad-href".


Definition http_not_modified : nat -> string -> Outcome :=
  fun _ _ => respond 304 "".

(** A timeout, then a 503, then the page. *)
Definition http_flaky : nat -> string -> Outcome :=
  fun n _ =>
    match n with
    | 0 => Failed (Timeout "read timed out")
    | 1 => respond 503 ""
    | _ => respond 200 "listing"
    end.

Definition http_down : nat -> string -> Outcome :=
  fun n _ => Failed (ConnectionError ("refused")).

(** Every draw at the low end of its range. *)
Definition uniform_low : nat -> Z -> Z -> Z :=
  fun _ lo _ => (lo * 1000000)%Z.

Definition world0 : World :=
  {| w_clock := hours 1000; w_draws := 0; w_sent := 0; w_log := [] |}.

Definition electronics_href : string := "/Best-Sellers-Electronics/zgbs/electronics".

Definition category (id : Z) (name href : string) (last : option timestamp)
    : Store.Category :=
  {| Store.cat_id := id; Store.cat_name := name; Store.cat_href := href;
     Store.cat_last_scraped := last; Store.cat_created_at := 0%Z |}.

Definition old_product (id cid : Z) (title : string) (rank : Z) : Store.Product :=
  {| Store.prod_id := id; Store.prod_category_id := cid; Store.prod_title := title;
     Store.prod_affiliate_link := "https://www.amazon.com/dp/B000000000?tag=your-tag-20";
     Store.prod_summary := Some "No description available";
     Store.prod_rank := Some rank;
     Store.prod_last_updated := 0%Z; Store.prod_created_at := 0%Z |}.

(** Three categories: never scraped, scraped one hour and 48 hours before
    the clock of [world0]. *)
Definition db0 : Store.DB :=
  {| Store.categories :=
       [ category 1 "Electronics" electronics_href None;
         category 2 "Books" "/best-sellers-books-Amazon/zgbs/books"
                  (Some (hours 1000 - hours 1)%Z);
         category 3 "Toys" "/Best-Sellers-Toys-Games/zgbs/toys-and-games"
                  (Some (hours 1000 - hours 48)%Z) ];
     Store.products :=
       [ old_product 1 1 "Old speaker" 1;
         old_product 2 2 "Old novel" 1;
         old_product 3 1 "Old headphones" 2;
         old_product 4 1 "Old charger" 3 ];
     Store.products_id_seq := 4 |}.

Definition state0 : State := {| st_db := db0; st_world := world0 |}.

(** The record of [block_echo] found at the second position. *)
Definition echo_record_2 : ProductInfo :=
  {| pi_title := "Echo Dot (4th Gen)";
     pi_url := "https://www.amazon.com/dp/B08N5WRWNW?tag=your-tag-20";
     pi_summary := "Smart speaker with Alexa"; pi_rank := 2 |}.

(** Three extracted records whose own ranks are not 1, 2, 3. *)
Definition three_products : list ProductInfo :=
  [ {| pi_title := "Echo Dot (4th Gen)";
       pi_url := "https://www.amazon.com/dp/B08N5WRWNW?tag=your-tag-20";
       pi_summary := "Smart speaker with Alexa"; pi_rank := 2 |};
    {| pi_title := "Fire TV Stick";
       pi_url := "https://www.amazon.com/dp/B08C1W5N87?tag=your-tag-20";
       pi_summary := "No description available"; pi_rank := 5 |};
    {| pi_title := "Kindle Paperwhite";
       pi_url := "https://www.amazon.com/dp/B08KTZ8249?tag=your-tag-20";
       pi_summary := "No description available"; pi_rank := 7 |} ].

End Examples.

(* ===================================================================== *)
(** ** Further concrete inputs *)
(* ===================================================================== *)

Module MoreExamples.

Import Scraper.

(** A block with an anchor and nothing a title or summary selector
    matches. *)
Definition block_bare : Block :=
  {| find_a := Some {| href := "/gp/product/B08N5WRWNW" |};
     select_one := fun _ => None |}.

(** A page on which two of the block selectors match. *)
Definition soup_two_layouts : Soup :=
  {| select := fun sel =>
       if String.eqb sel ".zg-item-immersion" then [Examples.block_echo]
       else if String.eqb sel ".s-result-item"
            then [Examples.block_short_title; Examples.block_echo]
            else [];
     find_all_item_or_product := [block_bare] |}.





(** A page on which only the fallback scan finds blocks. *)
Definition soup_fallback_only : Soup :=
  {| select := fun _ => [];
     find_all_item_or_product := [Examples.block_echo; block_bare] |}.

End MoreExamples.

(* ===================================================================== *)
(** ** [DatabaseManager]: the category list *)
(* ===================================================================== *)

Module Catalog.

Import PyStr Store.

(** The database together with the last value of the [categories.id]
    sequence. *)
Record Tables : Type := {
  tables : DB;
  categories_id_seq : Z
}.

(** What the driver refuses (the [ValueError] for a string with a NUL
    character, raised before anything is sent) and what the server
    refuses. *)
Inductive StoreError : Type :=
  | NulInString
  | StringDataRightTruncation (type_name : string)
  | UniqueViolation (constraint_name : string).

(** An entry of [categories_list]: a dictionary with [name] and [href]. *)
Record CategoryInput : Type := {
  in_name : string;
  in_href : string
}.

(** A value stored into a [VARCHAR(n)] column: kept when it fits, cut to
    [n] characters when all that exceeds them is spaces, refused
    otherwise. *)
Definition varchar (n : nat) (s : string) : option string :=
  if (String.length s <=? n)%nat then Some s
  else if all_chars (Ascii.eqb " ") (drop n s) then Some (take n s)
  else None.

(** [DO UPDATE SET name = EXCLUDED.name] on the row in conflict. *)
Definition rename (href name : string) (c : Category) : Category :=
  if String.eqb (cat_href c) href
  then {| cat_id := cat_id c; cat_name := name; cat_href := cat_href c;
          cat_last_scraped := cat_last_scraped c;
          cat_created_at := cat_created_at c |}
  else c.

Definition href_exists (href : string) (db : DB) : bool :=
  existsb (fun c => String.eqb (cat_href c) href) (categories db).

Definition with_categories (db : DB) (cats : list Category) : DB :=
  {| categories := cats; products := products db;
     products_id_seq := products_id_seq db |}.

(** [INSERT INTO categories (name, href) VALUES (%s, %s)
     ON CONFLICT (href) DO UPDATE SET name = EXCLUDED.name]:
    the driver refuses a string with a NUL character; then the values are
    fitted to their columns, an id is drawn from the sequence, and the row
    is written unless one with that [href] is there, which is renamed
    instead. *)
Definition upsert (now : timestamp) (c : CategoryInput) (t : Tables)
    : (unit + StoreError) * Tables :=
  if has_nul (in_name c) || has_nul (in_href c) then (inr NulInString, t) else
  match varchar 255 (in_name c) with
  | None => (inr (StringDataRightTruncation "character varying(255)"), t)
  | Some name =>
      match varchar 500 (in_href c) with
      | None => (inr (StringDataRightTruncation "character varying(500)"), t)
      | Some href =>
          let id := (categories_id_seq t + 1)%Z in
          let db := tables t in
          if href_exists href db
          then (inl tt,
                {| tables := with_categories db (map (rename href name) (categories db));
                   categories_id_seq := id |})
          else if category_exists id db
          then (inr (UniqueViolation "categories_pkey"),
                {| tables := db; categories_id_seq := id |})
          else (inl tt,
                {| tables :=
                     with_categories db
                       (categories db ++
                        [{| cat_id := id; cat_name := name; cat_href := href;
                            cat_last_scraped := None; cat_created_at := now |}]);
                   categories_id_seq := id |})
      end
  end.

(** The [for category in categories_list] loop on the working copy. *)
Fixpoint upsert_all (now : timestamp) (categories_list : list CategoryInput)
    (t : Tables) : (unit + StoreError) * Tables :=
  match categories_list with
  | [] => (inl tt, t)
  | category :: rest =>
      match upsert now category t with
      | (inl _, t') => upsert_all now rest t'
      | (inr e, t') => (inr e, t')
      end
  end.

(** One transaction for the whole list: committed after the loop, dropped
    when a statement is refused (the sequence keeps what was drawn). *)
Definition insert_categories (now : timestamp)
    (categories_list : list CategoryInput) (t : Tables)
    : (unit + StoreError) * Tables :=
  match upsert_all now categories_list t with
  | (inl _, t') => (inl tt, t')
  | (inr e, t') =>
      (inr e, {| tables := tables t; categories_id_seq := categories_id_seq t' |})
  end.

Section Collation.

(** The order of the database's collation on [name]. *)
Variable collate_le : string -> string -> bool.

(** [SELECT * FROM categories ORDER BY name]. *)
Definition get_all_categories (db : DB) : list Category :=
  sort_by (fun c d => collate_le (cat_name c) (cat_name d)) (categories db).

End Collation.



(** The product ids are in order likewise. *)
Definition product_ids_ok (db : DB) : Prop :=
  NoDup (map prod_id (products db)) /\
  Forall (fun p => (prod_id p <= products_id_seq db)%Z) (products db).


(** The columns of a category row that renaming leaves alone. *)
Definition fixed_columns (c : Category) : Z * string * option timestamp * timestamp :=
  (cat_id c, cat_href c, cat_last_scraped c, cat_created_at c).

End Catalog.

(* ===================================================================== *)
(** ** The routes that write *)
(* ===================================================================== *)

Module Routes.

Import Store Scraper Catalog.

(** An entry of [results] in [scrape_batch]. *)
Record BatchResult : Type := {
  br_category_id : Z;
  br_name : string;
  br_success : bool;
  br_error : option exn
}.

(** The answer of [scrape_batch]: [success], [results] and [processed]
    with status 200, or [success] false and [error] with status 500. *)
Inductive BatchResponse : Type :=
  | BatchDone (results : list BatchResult) (processed : Z)
  | BatchFailed (error : exn).

Definition batch_status (r : BatchResponse) : Z :=
  match r with BatchDone _ _ => 200 | BatchFailed _ => 500 end.

Definition batch_success (r : BatchResponse) : bool :=
  match r with BatchDone _ _ => true | BatchFailed _ => false end.

(** A JSON value as [request.json] gives it. Of a float the code can only
    see whether it is zero. *)
#[local] Set Warnings "-register-all".
Inductive Json : Type :=
  | JNull
  | JBool (b : bool)
  | JInt (n : Z)
  | JFloat (zero : bool)
  | JString (s : string)
  | JArray (items : list Json)
  | JObject (fields : list (string * Json)).

(** The truth value of the Python value. *)
Definition json_truthy (v : Json) : bool :=
  match v with
  | JNull => false
  | JBool b => b
  | JInt n => negb (n =? 0)%Z
  | JFloat zero => negb zero
  | JString s => match s with EmptyString => false | String _ _ => true end
  | JArray items => match items with [] => false | _ :: _ => true end
  | JObject fields => match fields with [] => false | _ :: _ => true end
  end.

Definition type_name (v : Json) : string :=
  match v with
  | JNull => "NoneType"
  | JBool _ => "bool"
  | JInt _ => "int"
  | JFloat _ => "float"
  | JString _ => "str"
  | JArray _ => "list"
  | JObject _ => "dict"
  end.

(** [d.get(key)] on the dictionary of a JSON object, in which the last of
    the members with one name counts. *)
Definition dict_get (key : string) (fields : list (string * Json)) : option Json :=
  option_map snd (find (fun kv => String.eqb (fst kv) key) (rev fields)).

(** [request.json.get('limit', 5) if request.json else 5], where
    [request_json] is what [request.json] gives or raises. *)
Definition request_limit (request_json : result Json) : result Json :=
  match request_json with
  | Raise e => Raise e
  | Ok v =>
      if json_truthy v
      then match v with
           | JObject fields =>
               Ok (match dict_get "limit" fields with
                   | Some limit => limit
                   | None => JInt 5
                   end)
           | _ => Raise (AttributeError
                           ("'" ++ type_name v ++ "' object has no attribute 'get'"))
           end
      else Ok (JInt 5)
  end.

(** [l[:limit]]: [None] keeps the list, an integer cuts it, and so does a
    boolean, which is an integer; another value is a [TypeError]. *)
Definition slice_to_json {A} (limit : Json) (l : list A) : result (list A) :=
  match limit with
  | JNull => Ok l
  | JInt n => Ok (slice_to n l)
  | JBool b => Ok (slice_to (if b then 1 else 0) l)
  | _ => Raise (TypeError
                  "slice indices must be integers or None or have an __index__ method")
  end.


(** The category with this id is stored and bears a scrape time. *)
Definition stamped (category_id : Z) (db : DB) : Prop :=
  exists c t, get_category_by_id category_id db = Some c /\
              cat_last_scraped c = Some t.

Section WithEnvironment.

Variable http_get : nat -> string -> Outcome.
Variable uniform : nat -> Z -> Z -> Z.
Variable urljoin : string -> string -> result string.
Variable BeautifulSoup : string -> Soup.

(** [time.sleep(random.uniform(lo, hi))] in the state of the process. *)
Definition pause (lo hi : Z) (st : State) : State :=
  {| st_db := st_db st;
     st_world := snd (sleep uniform lo hi (st_world st)) |}.

(** The [for category in categories] loop of [scrape_batch]: the sleep of
    10 to 15 follows a call that returned, not one that raised. *)
Fixpoint scrape_batch_loop (categories : list Category)
    (results : list BatchResult) (st : State) : list BatchResult * State :=
  match categories with
  | [] => (results, st)
  | category :: rest =>
      match scrape_and_store_category http_get uniform urljoin BeautifulSoup
              (cat_id category) st with
      | (Ok success, st') =>
          scrape_batch_loop rest
            (results ++ [{| br_category_id := cat_id category;
                            br_name := cat_name category;
                            br_success := success; br_error := None |}])
            (pause 10 15 st')
      | (Raise e, st') =>
          scrape_batch_loop rest
            (results ++ [{| br_category_id := cat_id category;
                            br_name := cat_name category;
                            br_success := false; br_error := Some e |}])
            st'
      end
  end.

(** [db_manager.get_categories_needing_update()[:limit]] with the limit of
    the request. *)
Definition batch_categories (request_json : result Json) (st : State)
    : result (list Category) :=
  match request_limit request_json with
  | Raise e => Raise e
  | Ok limit =>
      slice_to_json limit
        (get_categories_needing_update (w_clock (st_world st)) default_hours_old
                                       (st_db st))
  end.

(** The categories the call goes through: none when it fails before the
    loop. *)
Definition batch_due (request_json : result Json) (st : State) : list Category :=
  match batch_categories request_json st with
  | Ok categories => categories
  | Raise _ => []
  end.

(** [POST /api/scrape/batch]; [request_json] is what [request.json] gives
    or raises. What is raised before the loop is answered with 500. *)
Definition scrape_batch (request_json : result Json) (st : State)
    : BatchResponse * State :=
  match batch_categories request_json st with
  | Raise e => (BatchFailed e, st)
  | Ok categories =>
      let (results, st') :=
        scrape_batch_loop categories [] st in
      (BatchDone results (Z.of_nat (length results)), st')
  end.

End WithEnvironment.


End Routes.

(* ===================================================================== *)
(** ** Concrete category lists *)
(* ===================================================================== *)

Module CatalogExamples.

(** The tables of [Examples.db0] with the category sequence at 3. *)
Definition tables0 : Catalog.Tables :=
  {| Catalog.tables := Examples.db0; Catalog.categories_id_seq := 3 |}.

Definition entry (name href : string) : Catalog.CategoryInput :=
  {| Catalog.in_name := name; Catalog.in_href := href |}.


(** A list whose second entry has a name of 256 letters. *)
Definition setup_list_too_long : list Catalog.CategoryInput :=
  [ entry "Garden" "/Best-Sellers-Garden/zgbs/lawn-garden";
    entry (Examples.replicate 256 "x") "/Best-Sellers-Kitchen/zgbs/kitchen" ].

End CatalogExamples.

(* ===================================================================== *)
(** ** Facts about the string operations *)
(* ===================================================================== *)

Module PyStrFacts.

Import PyStr.

Lemma append_assoc (a b c : string) : (a ++ b) ++ c = a ++ (b ++ c).
Proof. induction a as [|x a IH]; simpl; [reflexivity | now rewrite IH]. Qed.

Lemma length_append (a b : string) :
  String.length (a ++ b) = String.length a + String.length b.
Proof. induction a as [|x a IH]; simpl; [reflexivity | now rewrite IH]. Qed.

Lemma prefix_append (a b : string) : prefix a (a ++ b) = true.
Proof.
  induction a as [|x a IH]; simpl.
  - now destruct b.
  - destruct (ascii_dec x x) as [_|N]; [exact IH | now elim N].
Qed.

Lemma prefix_split (a s : string) :
  prefix a s = true -> exists t, s = a ++ t.
Proof.
  revert s. induction a as [|x a IH]; intros s H.
  - exists s. reflexivity.
  - destruct s as [|y s]; simpl in H; [discriminate|].
    destruct (ascii_dec x y) as [->|_]; [|discriminate].
    destruct (IH _ H) as [t ->]. exists t. reflexivity.
Qed.

Lemma drop_append (a b : string) : drop (String.length a) (a ++ b) = b.
Proof. induction a as [|x a IH]; simpl; [now destruct b | exact IH]. Qed.

Lemma take_append (a b : string) : take (String.length a) (a ++ b) = a.
Proof. induction a as [|x a IH]; simpl; [reflexivity | now rewrite IH]. Qed.

Lemma take_all (n : nat) (s : string) : String.length s <= n -> take n s = s.
Proof.
  revert s. induction n as [|n IH]; intros [|c s] H; simpl in *;
    try reflexivity; [lia|]. rewrite IH; [reflexivity | lia].
Qed.

Lemma length_take (n : nat) (s : string) :
  n <= String.length s -> String.length (take n s) = n.
Proof.
  revert s. induction n as [|n IH]; intros [|c s] H; simpl in *;
    try reflexivity; [lia|]. rewrite IH; [reflexivity | lia].
Qed.

Lemma lower_append (a b : string) : lower (a ++ b) = lower a ++ lower b.
Proof. induction a as [|x a IH]; simpl; [reflexivity | now rewrite IH]. Qed.

Lemma contains_prefix (sub s : string) :
  prefix sub s = true -> contains sub s = true.
Proof. intros H. destruct s; cbn [contains]; now rewrite H. Qed.

(** [contains] finds every occurrence. *)
Lemma contains_occurrence (sub pre post : string) :
  contains sub (pre ++ sub ++ post) = true.
Proof.
  induction pre as [|x pre IH].
  - apply contains_prefix. exact (prefix_append sub post).
  - change (String x pre ++ sub ++ post) with (String x (pre ++ sub ++ post)).
    cbn [contains]. rewrite IH. now destruct (prefix sub _).
Qed.

(** and only occurrences. *)
Lemma contains_split (sub s : string) :
  contains sub s = true -> exists pre post, s = pre ++ sub ++ post.
Proof.
  induction s as [|c s IH]; cbn [contains]; intros H.
  - destruct (prefix sub "") eqn:P; [|discriminate].
    destruct (prefix_split _ _ P) as [t E]. exists "", t. exact E.
  - destruct (prefix sub (String c s)) eqn:P.
    + destruct (prefix_split _ _ P) as [t E]. exists "", t. exact E.
    + destruct (IH H) as (pre & post & ->). exists (String c pre), post. reflexivity.
Qed.

(** [read_class] reads exactly [n] characters of the class. *)
Lemma read_class_sound p n s a :
  read_class p n s = Some a ->
  exists post, s = a ++ post /\ String.length a = n /\ all_chars p a = true.
Proof.
  revert s a. induction n as [|n IH]; intros s a H; simpl in H.
  - injection H as <-. exists s. repeat split.
  - destruct s as [|c s]; [discriminate|].
    destruct (p c) eqn:Pc; [|discriminate].
    destruct (read_class p n s) as [a'|] eqn:R; [|discriminate].
    injection H as <-. destruct (IH _ _ R) as (post & -> & L & C).
    exists post. simpl. rewrite Pc, C, L. repeat split.
Qed.

Lemma read_class_complete p a post :
  all_chars p a = true -> read_class p (String.length a) (a ++ post) = Some a.
Proof.
  induction a as [|c a IH]; simpl; intros H; [reflexivity|].
  apply andb_true_iff in H as [Pc C]. rewrite Pc, (IH C). reflexivity.
Qed.

Lemma match_asin_here_sound s a :
  match_asin_here s = Some a -> exists post, s = "/dp/" ++ a ++ post /\ is_asin a.
Proof.
  unfold match_asin_here. destruct (prefix "/dp/" s) eqn:P; [|discriminate].
  destruct (prefix_split _ _ P) as [t ->]. intros R.
  change 4 with (String.length "/dp/") in R. rewrite drop_append in R.
  destruct (read_class_sound _ _ _ _ R) as (post & -> & L & C).
  exists post. split; [reflexivity | split; assumption].
Qed.

Lemma match_asin_here_complete a post :
  is_asin a -> match_asin_here ("/dp/" ++ a ++ post) = Some a.
Proof.
  intros [L C]. unfold match_asin_here. rewrite prefix_append.
  replace (drop 4 ("/dp/" ++ a ++ post)) with (a ++ post)
    by (symmetry; exact (drop_append "/dp/" (a ++ post))).
  rewrite <- L. now apply read_class_complete.
Qed.

Lemma search_asin_leftmost s a : search_asin s = Some a -> leftmost_asin s a.
Proof.
  revert a. induction s as [|c s IH]; intros a; cbn [search_asin].
  - destruct (match_asin_here "") as [b|] eqn:E; [|discriminate].
    now apply match_asin_here_sound in E as (post & E & _).
  - destruct (match_asin_here (String c s)) as [b|] eqn:E.
    + intros [= ->]. destruct (match_asin_here_sound _ _ E) as (post & Es & A).
      exists "", post. repeat split; try assumption; try apply A.
      intros; simpl; lia.
    + intros H. destruct (IH _ H) as (pre & post & -> & A & Least).
      exists (String c pre), post. repeat split; try apply A.
      intros pre' a' post' Eq A'. destruct pre' as [|c' pre'].
      * change ("" ++ "/dp/" ++ a' ++ post') with ("/dp/" ++ a' ++ post') in Eq.
        rewrite Eq, (match_asin_here_complete _ _ A') in E. discriminate.
      * injection Eq as _ Eq. simpl. apply le_n_S.
        exact (Least pre' a' post' Eq A').
Qed.

Lemma search_asin_finds pre a post :
  is_asin a -> search_asin (pre ++ "/dp/" ++ a ++ post) <> None.
Proof.
  intros A. induction pre as [|c pre IH].
  - change ("" ++ "/dp/" ++ a ++ post) with (String "/" ("dp/" ++ a ++ post)).
    cbn [search_asin].
    change (String "/" ("dp/" ++ a ++ post)) with ("/dp/" ++ a ++ post).
    rewrite (match_asin_here_complete _ _ A). discriminate.
  - change (String c pre ++ "/dp/" ++ a ++ post)
      with (String c (pre ++ "/dp/" ++ a ++ post)).
    cbn [search_asin]. destruct (match_asin_here _); [discriminate | exact IH].
Qed.

End PyStrFacts.

(* ===================================================================== *)
(** ** Field resolution and link conversion *)
(* ===================================================================== *)

Module FieldFacts.

Import PyStr PyStrFacts Scraper.

Lemma lower_split (t x y : string) :
  lower t = x ++ y -> exists t1 t2, t = t1 ++ t2 /\ lower t1 = x /\ lower t2 = y.
Proof.
  revert t. induction x as [|c x IH]; intros t H.
  - exists "", t. repeat split. exact H.
  - destruct t as [|d t]; [discriminate|]. simpl in H. injection H as Hc Ht.
    destruct (IH _ Ht) as (t1 & t2 & -> & L1 & L2).
    exists (String d t1), t2. simpl. rewrite Hc, L1, L2. repeat split.
Qed.

Lemma stars_in_lower (t : string) :
  contains "stars" (lower t) = true <-> mentions_stars t.
Proof.
  split.
  - intros H. apply contains_split in H as (p & q & H).
    apply lower_split in H as (t1 & t2 & -> & L1 & H).
    apply lower_split in H as (t3 & t4 & -> & L3 & L4).
    exists t1, t3, t4. split; [reflexivity | exact L3].
  - intros (pre & mid & post & -> & L).
    rewrite !lower_append, L. apply contains_occurrence.
Qed.

Lemma truthy_length (t : string) : truthy t = true <-> (0 < len t)%Z.
Proof.
  unfold truthy, len. destruct t; simpl; split; intros H;
    try reflexivity; try discriminate; lia.
Qed.

Lemma summary_ok_iff (t : string) :
  summary_ok t = true <-> (10 < len t)%Z /\ ~ mentions_stars t.
Proof.
  unfold summary_ok. rewrite !andb_true_iff, negb_true_iff, truthy_length,
    Z.ltb_lt, <- stars_in_lower.
  split.
  - intros [[_ L] C]. split; [exact L | now rewrite C].
  - intros [L C]. repeat split; try lia. now destruct (contains _ _).
Qed.

(** The summary loop over any selector list: the first accepted candidate
    wins. *)
Lemma summary_loop_first b pre sel post el dflt :
  select_one b sel = Some el ->
  summary_ok (get_text el) = true ->
  (forall s e, In s pre -> select_one b s = Some e -> summary_ok (get_text e) = false) ->
  summary_loop b (pre ++ sel :: post) dflt = clip (get_text el).
Proof.
  intros Hsel Hok. induction pre as [|s pre IH]; intros Hpre; simpl.
  - now rewrite Hsel, Hok.
  - destruct (select_one b s) as [e|] eqn:E.
    + rewrite (Hpre s e (or_introl eq_refl) E). apply IH.
      intros s' e' I. apply Hpre. now right.
    + apply IH. intros s' e' I. apply Hpre. now right.
Qed.

Lemma summary_loop_none b sels dflt :
  (forall s e, In s sels -> select_one b s = Some e -> summary_ok (get_text e) = false) ->
  summary_loop b sels dflt = dflt.
Proof.
  induction sels as [|s sels IH]; intros H; simpl; [reflexivity|].
  destruct (select_one b s) as [e|] eqn:E.
  - rewrite (H s e (or_introl eq_refl) E). apply IH.
    intros s' e' I. apply H. now right.
  - apply IH. intros s' e' I. apply H. now right.
Qed.

(** The title loop returns the first candidate that passes the test, when
    there is one. *)
Lemma title_loop_first b pre sel post el dflt :
  select_one b sel = Some el ->
  title_ok (get_text el) = true ->
  (forall s e, In s pre -> select_one b s = Some e -> title_ok (get_text e) = false) ->
  title_loop b (pre ++ sel :: post) dflt = get_text el.
Proof.
  intros Hsel Hok. revert dflt. induction pre as [|s pre IH]; intros dflt Hpre; simpl.
  - now rewrite Hsel, Hok.
  - destruct (select_one b s) as [e|] eqn:E.
    + rewrite (Hpre s e (or_introl eq_refl) E). apply IH.
      intros s' e' I. apply Hpre. now right.
    + apply IH. intros s' e' I. apply Hpre. now right.
Qed.

(** C3, at a block whose only title candidate is the two-character text
    Hi: no candidate of the selector list passes the test (non-empty and
    longer than 3 characters), and the resolved title is that rejected text,
    not the sentinel, so the record passes the extractor's sentinel filter. *)
Theorem title_loop_keeps_rejected_candidate :
  no_title_candidate Examples.block_short_title title_selectors = true /\
  title_loop Examples.block_short_title title_selectors no_title = "Hi" /\
  option_map pi_title
    (accepted (extract_product_info Examples.urljoin_paths
                 Examples.block_short_title 1)) = Some "Hi".
Proof. repeat split. Qed.

(** C5: the summary of a block is the clipped text of the first candidate
    of the ordered selector list that is longer than 10 characters and does
    not hold the word stars in any letter case; candidates before it that
    fail the test are passed over; without an accepted candidate the summary
    is the sentinel; a text of up to 200 characters (200 included) is kept
    as it is, and one of 201 or more is cut to its first 200 characters
    followed by three dots. *)
Theorem summary_resolution (b : Block) :
  (forall pre sel post el,
      desc_selectors = (pre ++ sel :: post)%list ->
      select_one b sel = Some el ->
      summary_ok (get_text el) = true ->
      (forall s e, In s pre -> select_one b s = Some e ->
                   summary_ok (get_text e) = false) ->
      summary_loop b desc_selectors no_description = clip (get_text el))
  /\ ((forall s e, In s desc_selectors -> select_one b s = Some e ->
                   summary_ok (get_text e) = false) ->
      summary_loop b desc_selectors no_description = no_description)
  /\ (forall t, summary_ok t = true <-> (10 < len t)%Z /\ ~ mentions_stars t)
  /\ (forall t, (len t <= 200)%Z -> clip t = t)
  /\ (forall t, (201 <= len t)%Z ->
        clip t = take 200 t ++ "..." /\ len (take 200 t) = 200%Z).
Proof.
  split; [|split; [|split; [|split]]].
  - intros pre sel post el -> Hsel Hok Hpre. now apply summary_loop_first.
  - apply summary_loop_none.
  - apply summary_ok_iff.
  - intros t L. unfold clip. destruct (Z.ltb_spec 200 (len t)); [lia | reflexivity].
  - intros t L. unfold clip. destruct (Z.ltb_spec 200 (len t)); [|lia].
    split; [reflexivity|]. unfold len in *. rewrite length_take; lia.
Qed.

Lemma rating_line_rejected (s : string) (e : Element) :
  In s [".a-size-small"] ->
  select_one Examples.block_echo s = Some e ->
  summary_ok (get_text e) = false.
Proof.
  intros [<-|[]] H. injection H as <-. reflexivity.
Qed.

Lemma short_title_block_has_no_summary (s : string) (e : Element) :
  In s desc_selectors ->
  select_one Examples.block_short_title s = Some e ->
  summary_ok (get_text e) = false.
Proof.
  intros I. repeat (destruct I as [<-|I]; [discriminate|]). destruct I.
Qed.

(** The star-rating line of the first selector is passed over although it
    spells Stars with a capital; a 200-character text is kept and a
    201-character one is cut. *)
Lemma summary_resolution_witness :
  summary_loop Examples.block_echo desc_selectors no_description
    = "Smart speaker with Alexa"
  /\ summary_loop Examples.block_short_title desc_selectors no_description
       = no_description
  /\ clip Examples.text_200 = Examples.text_200
  /\ clip Examples.text_201 = Examples.text_200 ++ "...".
Proof.
  split; [|split; [|split]].
  - exact (proj1 (summary_resolution Examples.block_echo)
             [".a-size-small"] ".a-color-secondary"
             ["span[class*=review]"; "span[class*=rating]"; ".a-text-subtle"]
             {| get_text := "Smart speaker with Alexa" |}
             eq_refl eq_refl eq_refl rating_line_rejected).
  - exact (proj1 (proj2 (summary_resolution Examples.block_short_title))
             short_title_block_has_no_summary).
  - apply (proj1 (proj2 (proj2 (proj2 (summary_resolution Examples.block_echo))))).
    vm_compute. discriminate.
  - apply (proj2 (proj2 (proj2 (proj2 (summary_resolution Examples.block_echo))))
             Examples.text_201).
    vm_compute. discriminate.
Defined.

(** C4 as stated fails: a link whose identifier is followed by a question
    mark holds no [/dp/<id>/] segment, and is rewritten all the same. *)
Lemma convert_to_affiliate_link_without_slash :
  ~ (forall url tag : string,
       has_dp_segment url = false -> convert_to_affiliate_link url tag = url).
Proof.
  intros H.
  specialize (H "https://www.amazon.com/dp/B08N5WRWNW?th=1" "your-tag-20" eq_refl).
  discriminate H.
Qed.

(** C4, amended: a URL that holds [/dp/] followed at once by ten uppercase
    letters or digits (a slash after them is not needed) is rewritten to
    the canonical link of the identifier of the leftmost such place, with
    the tag given; a URL without such a place is returned as it is. *)
Theorem convert_to_affiliate_link_leftmost (url tag : string) :
  (forall pre a post,
      url = pre ++ "/dp/" ++ a ++ post -> is_asin a ->
      exists a0, leftmost_asin url a0 /\
                 convert_to_affiliate_link url tag
                 = "https://www.amazon.com/dp/" ++ a0 ++ "?tag=" ++ tag)
  /\ ((forall pre a post, is_asin a -> url <> pre ++ "/dp/" ++ a ++ post) ->
      convert_to_affiliate_link url tag = url).
Proof.
  unfold convert_to_affiliate_link. split.
  - intros pre a post -> A.
    destruct (search_asin _) as [a0|] eqn:E.
    + exists a0. split; [now apply search_asin_leftmost | reflexivity].
    + now apply (search_asin_finds pre a post) in A.
  - intros H. destruct (search_asin url) as [a0|] eqn:E; [|reflexivity].
    apply search_asin_leftmost in E as (pre & post & E & A & _).
    now elim (H pre a0 post A).
Qed.

Lemma help_page_has_no_asin (pre a post : string) :
  is_asin a ->
  "https://www.amazon.com/gp/help/customer" <> pre ++ "/dp/" ++ a ++ post.
Proof.
  intros A E. apply (search_asin_finds pre a post A). now rewrite <- E.
Qed.

(** The link of the specification's example is rewritten, and one without
    an identifier is passed through. *)
Lemma convert_to_affiliate_link_witness :
  (exists a0,
      leftmost_asin "https://www.amazon.com/Echo-Dot/dp/B08N5WRWNW/ref=zg" a0 /\
      convert_to_affiliate_link
        "https://www.amazon.com/Echo-Dot/dp/B08N5WRWNW/ref=zg" "your-tag-20"
      = "https://www.amazon.com/dp/" ++ a0 ++ "?tag=" ++ "your-tag-20")
  /\ convert_to_affiliate_link "https://www.amazon.com/gp/help/customer" "your-tag-20"
     = "https://www.amazon.com/gp/help/customer".
Proof.
  split.
  - exact (proj1 (convert_to_affiliate_link_leftmost
                    "https://www.amazon.com/Echo-Dot/dp/B08N5WRWNW/ref=zg"
                    "your-tag-20")
             "https://www.amazon.com/Echo-Dot" "B08N5WRWNW" "/ref=zg"
             eq_refl (conj eq_refl eq_refl)).
  - exact (proj2 (convert_to_affiliate_link_leftmost
                    "https://www.amazon.com/gp/help/customer" "your-tag-20")
             help_page_has_no_asin).
Defined.

End FieldFacts.

(* ===================================================================== *)
(** ** The fetcher *)
(* ===================================================================== *)

Module FetcherFacts.

Import Scraper.

Section Fetcher.

Variable http_get : nat -> string -> Outcome.
Variable uniform : nat -> Z -> Z -> Z.

Local Abbreviation attempt_once := (attempt_once http_get uniform).
Local Abbreviation get_page_loop := (get_page_loop http_get uniform).
Local Abbreviation get_page := (get_page http_get uniform).

Lemma failure_of_result (o : Outcome) :
  match failure_of o with
  | Some e => attempt_result o = Raise (RequestError e)
  | None => exists r, o = Responded r /\ attempt_result o = Ok r
  end.
Proof.
  destruct o as [r|e]; simpl; [|reflexivity].
  unfold raise_for_status. destruct (_ && _); [reflexivity|].
  exists r. split; reflexivity.
Qed.

(** One attempt: the polite sleep, the request, and the status check. *)
Lemma attempt_once_eq (url : string) (w : World) :
  exists w1,
    attempt_once url w = (attempt_result (http_get (w_sent w) url), w1) /\
    w_sent w1 = S (w_sent w) /\
    w_log w1 = (w_log w ++ [ESleep 2 5; EGet url])%list.
Proof.
  unfold Scraper.attempt_once, bind, sleep, session_get, attempt_result; simpl.
  destruct (http_get (w_sent w) url) as [r|e]; simpl.
  - destruct (raise_for_status r); eexists; (split; [reflexivity|]); simpl;
      rewrite <- app_assoc; split; reflexivity.
  - eexists; (split; [reflexivity|]); simpl; rewrite <- app_assoc; split; reflexivity.
Qed.

(** A failed attempt that is not the last one: the longer sleep, then the
    rest of the loop. *)
Lemma get_page_loop_retry (url : string) (n a : nat) (rest : list Z) (w : World)
    (e : RequestException) :
  failure_of (http_get (w_sent w) url) = Some e ->
  S a < n ->
  exists w2,
    get_page_loop url (Z.of_nat n) (Z.of_nat a :: rest) w
      = get_page_loop url (Z.of_nat n) rest w2 /\
    w_sent w2 = S (w_sent w) /\
    w_log w2 = (w_log w ++ [ESleep 2 5; EGet url; ESleep 3 7])%list.
Proof.
  intros F L. destruct (attempt_once_eq url w) as (w1 & E & Hs & Hl).
  pose proof (failure_of_result (http_get (w_sent w) url)) as R. rewrite F in R.
  cbn [Scraper.get_page_loop]. rewrite E, R. cbn [is_request_exception].
  destruct (Z.eqb_spec (Z.of_nat a) (Z.of_nat n - 1)) as [Q|_]; [lia|].
  unfold bind, sleep. simpl. eexists. split; [reflexivity|]. simpl.
  rewrite Hs, Hl, <- app_assoc. split; reflexivity.
Qed.

Lemma get_page_loop_success (url : string) (n : nat) :
  forall k a m w r,
    k < m -> a + m = n ->
    (forall j, j < k -> failure_of (http_get (w_sent w + j) url) <> None) ->
    http_get (w_sent w + k) url = Responded r ->
    failure_of (Responded r) = None ->
    exists w',
      get_page_loop url (Z.of_nat n) (map Z.of_nat (seq a m)) w = (Ok (Some r), w') /\
      w_sent w' = w_sent w + k + 1 /\
      w_log w' = (w_log w ++ rounds k url ++ [ESleep 2 5; EGet url])%list.
Proof.
  induction k as [|k IH]; intros a m w r Hk Ham Hfail Hget Hok.
  - destruct m as [|m]; [lia|]. cbn [seq map Scraper.get_page_loop].
    destruct (attempt_once_eq url w) as (w1 & E & Hs & Hl).
    rewrite Nat.add_0_r in Hget.
    pose proof (failure_of_result (http_get (w_sent w) url)) as R.
    rewrite Hget, Hok in R. destruct R as (r' & [= <-] & R).
    rewrite E, Hget, R. exists w1. split; [reflexivity|]. split; [lia | exact Hl].
  - destruct m as [|m]; [lia|]. cbn [seq map].
    destruct (failure_of (http_get (w_sent w) url)) as [e|] eqn:F.
    2:{ elim (Hfail 0); [lia|]. now rewrite Nat.add_0_r. }
    destruct (get_page_loop_retry url n a (map Z.of_nat (seq (S a) m)) w e F)
      as (w2 & E & Hs & Hl); [lia|].
    destruct (IH (S a) m w2 r) as (w' & E' & Hs' & Hl'); try lia; try assumption.
    + intros j Hj. rewrite Hs. replace (S (w_sent w) + j) with (w_sent w + S j) by lia.
      apply Hfail. lia.
    + rewrite Hs. replace (S (w_sent w) + k) with (w_sent w + S k) by lia. exact Hget.
    + exists w'. rewrite E, E'. split; [reflexivity|]. split; [lia|].
      rewrite Hl', Hl. cbn [rounds]. rewrite <- !app_assoc. reflexivity.
Qed.

Lemma get_page_loop_exhausted (url : string) (n : nat) :
  forall m a w e,
    a + S m = n ->
    (forall j, j < m -> failure_of (http_get (w_sent w + j) url) <> None) ->
    failure_of (http_get (w_sent w + m) url) = Some e ->
    exists w',
      get_page_loop url (Z.of_nat n) (map Z.of_nat (seq a (S m))) w
        = (Raise (RequestError e), w') /\
      w_sent w' = w_sent w + S m /\
      w_log w' = (w_log w ++ rounds m url ++ [ESleep 2 5; EGet url])%list.
Proof.
  induction m as [|m IH]; intros a w e Ham Hfail Hlast.
  - cbn [seq map Scraper.get_page_loop].
    destruct (attempt_once_eq url w) as (w1 & E & Hs & Hl).
    rewrite Nat.add_0_r in Hlast.
    pose proof (failure_of_result (http_get (w_sent w) url)) as R.
    rewrite Hlast in R. rewrite E, R. cbn [is_request_exception].
    destruct (Z.eqb_spec (Z.of_nat a) (Z.of_nat n - 1)) as [_|Q]; [|lia].
    exists w1. split; [reflexivity|]. split; [lia | exact Hl].
  - change (seq a (S (S m))) with (a :: seq (S a) (S m)). cbn [map].
    destruct (failure_of (http_get (w_sent w) url)) as [e0|] eqn:F.
    2:{ elim (Hfail 0); [lia|]. now rewrite Nat.add_0_r. }
    destruct (get_page_loop_retry url n a (map Z.of_nat (seq (S a) (S m))) w e0 F)
      as (w2 & E & Hs & Hl); [lia|].
    destruct (IH (S a) w2 e) as (w' & E' & Hs' & Hl'); try lia.
    + intros j Hj. rewrite Hs. replace (S (w_sent w) + j) with (w_sent w + S j) by lia.
      apply Hfail. lia.
    + rewrite Hs. replace (S (w_sent w) + m) with (w_sent w + S m) by lia. exact Hlast.
    + exists w'. rewrite E, E'. split; [reflexivity|]. split; [lia|].
      rewrite Hl', Hl. cbn [rounds]. rewrite <- !app_assoc. reflexivity.
Qed.

(** An exception leaves the loop only from its last attempt. *)
Lemma get_page_loop_raise (url : string) (n : nat) :
  forall m a w x w',
    a + m = n ->
    get_page_loop url (Z.of_nat n) (map Z.of_nat (seq a m)) w = (Raise x, w') ->
    w_sent w' = w_sent w + m /\
    (forall j, j < m -> failure_of (http_get (w_sent w + j) url) <> None) /\
    exists e, x = RequestError e /\
              failure_of (http_get (w_sent w + (m - 1)) url) = Some e.
Proof.
  induction m as [|m IH]; intros a w x w' Ham H.
  - discriminate H.
  - change (seq a (S m)) with (a :: seq (S a) m) in H. cbn [map] in H.
    pose proof (failure_of_result (http_get (w_sent w) url)) as R.
    destruct (failure_of (http_get (w_sent w) url)) as [e|] eqn:F.
    + destruct m as [|m].
      * cbn [seq map Scraper.get_page_loop] in H. unfold ret in H.
        destruct (attempt_once_eq url w) as (w1 & E & Hs & Hl).
        rewrite E, R in H. cbn [is_request_exception] in H.
        destruct (Z.eqb_spec (Z.of_nat a) (Z.of_nat n - 1)) as [_|Q]; [|lia].
        injection H as <- <-. split; [lia|]. split.
        -- intros j Hj. replace j with 0 by lia. rewrite Nat.add_0_r, F. discriminate.
        -- exists e. split; [reflexivity|]. now rewrite Nat.add_0_r.
      * destruct (get_page_loop_retry url n a (map Z.of_nat (seq (S a) (S m))) w e F)
          as (w2 & E & Hs & Hl); [lia|].
        rewrite E in H. apply IH in H as (Hs' & Hf & e' & -> & Hlast); [|lia].
        rewrite Hs in *. split; [lia|]. split.
        -- intros [|j] Hj.
           ++ rewrite Nat.add_0_r, F. discriminate.
           ++ replace (w_sent w + S j) with (S (w_sent w) + j) by lia. apply Hf. lia.
        -- exists e'. split; [reflexivity|].
           replace (w_sent w + (S (S m) - 1)) with (S (w_sent w) + (S m - 1)) by lia.
           exact Hlast.
    + destruct R as (r & Er & R). cbn [Scraper.get_page_loop] in H.
      destruct (attempt_once_eq url w) as (w1 & E & Hs & Hl).
      rewrite E, R in H. discriminate H.
Qed.

Lemma failure_of_iff (o : Outcome) :
  failure_of o <> None <->
  (exists e, o = Failed e) \/
  (exists r, o = Responded r /\ (400 <= status_code r < 600)%Z).
Proof.
  destruct o as [r|e]; simpl.
  - unfold raise_for_status.
    destruct (Z.leb_spec 400 (status_code r)) as [L|L],
             (Z.ltb_spec (status_code r) 600) as [U|U];
      simpl; split; intros F;
      try (right; exists r; split; [reflexivity | lia]);
      try discriminate; try (now elim F);
      destruct F as [[e [=]] | (r' & [= <-] & F)]; lia.
  - split; [intros _; left; now exists e | discriminate].
Qed.

(** C7, amended: every attempt of [get_page] starts with the sleep of 2 to
    5; an attempt fails when the transport raises or the status is a 4xx
    or 5xx one, and a response with any other status is returned at once;
    after a failed attempt that is not the last of the [retries] ones comes
    the sleep of 3 to 7 and the next attempt; the exception of the last
    attempt is raised after exactly [retries] requests, and no exception
    leaves [get_page] after fewer. *)
Theorem get_page_retries (url : string) (n : nat) (w : World) (Hn : 1 <= n) :
  (forall k r,
      k < n ->
      (forall j, j < k -> failure_of (http_get (w_sent w + j) url) <> None) ->
      http_get (w_sent w + k) url = Responded r ->
      failure_of (Responded r) = None ->
      exists w',
        get_page url (Z.of_nat n) w = (Ok (Some r), w') /\
        w_sent w' = w_sent w + k + 1 /\
        w_log w' = (w_log w ++ rounds k url ++ [ESleep 2 5; EGet url])%list)
  /\ (forall e,
      (forall j, j < n - 1 -> failure_of (http_get (w_sent w + j) url) <> None) ->
      failure_of (http_get (w_sent w + (n - 1)) url) = Some e ->
      exists w',
        get_page url (Z.of_nat n) w = (Raise (RequestError e), w') /\
        w_sent w' = w_sent w + n /\
        w_log w' = (w_log w ++ rounds (n - 1) url ++ [ESleep 2 5; EGet url])%list)
  /\ (forall x w',
      get_page url (Z.of_nat n) w = (Raise x, w') ->
      w_sent w' = w_sent w + n /\
      (forall j, j < n -> failure_of (http_get (w_sent w + j) url) <> None) /\
      exists e, x = RequestError e /\
                failure_of (http_get (w_sent w + (n - 1)) url) = Some e)
  /\ (forall o,
      failure_of o <> None <->
      (exists e, o = Failed e) \/
      (exists r, o = Responded r /\ (400 <= status_code r < 600)%Z)).
Proof.
  unfold Scraper.get_page, range. rewrite Nat2Z.id.
  split; [|split; [|split]].
  - intros k r Hk Hf Hg Ho. now apply get_page_loop_success.
  - intros e Hf Hl. destruct n as [|m]; [lia|].
    replace (S m - 1) with m in * by lia. now apply get_page_loop_exhausted.
  - intros x w' H. now apply (get_page_loop_raise url n n 0).
  - apply failure_of_iff.
Qed.

(** C7 as stated fails: a status outside 200..299 that is no 4xx or 5xx
    (here 304) is returned from the first attempt. *)
Lemma get_page_returns_not_modified :
  ~ (forall (get : nat -> string -> Outcome) (url : string) (w : World) (r : Response),
       get (w_sent w) url = Responded r ->
       is_2xx r = false ->
       fst (Scraper.get_page get Examples.uniform_low url default_retries w)
         <> Ok (Some r)).
Proof.
  intros H.
  apply (H Examples.http_not_modified "https://www.amazon.com/zgbs" Examples.world0
           {| status_code := 304; content := "" |}); reflexivity.
Qed.

End Fetcher.

Lemma flaky_fails_twice (j : nat) :
  j < 2 -> failure_of (Examples.http_flaky (0 + j) "https://www.amazon.com/zgbs") <> None.
Proof. intros H. destruct j as [|[|j]]; [discriminate | discriminate | lia]. Qed.

Lemma down_fails_twice (j : nat) :
  j < 3 - 1 -> failure_of (Examples.http_down (0 + j) "https://www.amazon.com/zgbs") <> None.
Proof. intros _. discriminate. Qed.

(** With the default of three attempts: a timeout and a 503 are retried
    and the third response is returned; three refused connections raise
    the third one's exception after three requests. *)
Lemma get_page_retries_witness :
  (exists w',
      Scraper.get_page Examples.http_flaky Examples.uniform_low
        "https://www.amazon.com/zgbs" 3 Examples.world0
      = (Ok (Some {| status_code := 200; content := "listing" |}), w') /\
      w_sent w' = 3 /\
      w_log w' = [ESleep 2 5; EGet "https://www.amazon.com/zgbs"; ESleep 3 7;
                  ESleep 2 5; EGet "https://www.amazon.com/zgbs"; ESleep 3 7;
                  ESleep 2 5; EGet "https://www.amazon.com/zgbs"])
  /\ (exists w',
      Scraper.get_page Examples.http_down Examples.uniform_low
        "https://www.amazon.com/zgbs" 3 Examples.world0
      = (Raise (RequestError (ConnectionError "refused")), w') /\
      w_sent w' = 3 /\
      w_log w' = [ESleep 2 5; EGet "https://www.amazon.com/zgbs"; ESleep 3 7;
                  ESleep 2 5; EGet "https://www.amazon.com/zgbs"; ESleep 3 7;
                  ESleep 2 5; EGet "https://www.amazon.com/zgbs"]).
Proof.
  split.
  - exact (proj1 (get_page_retries Examples.http_flaky Examples.uniform_low
                    "https://www.amazon.com/zgbs" 3 Examples.world0
                    (le_S 1 2 (le_S 1 1 (le_n 1))))
             2 {| status_code := 200; content := "listing" |}
             (le_n 3) flaky_fails_twice eq_refl eq_refl).
  - exact (proj1 (proj2 (get_page_retries Examples.http_down Examples.uniform_low
                    "https://www.amazon.com/zgbs" 3 Examples.world0
                    (le_S 1 2 (le_S 1 1 (le_n 1)))))
             (ConnectionError "refused") down_fails_twice eq_refl).
Defined.

End FetcherFacts.

(* ===================================================================== *)
(** ** The extractor *)
(* ===================================================================== *)

Module ExtractorFacts.

Import Scraper.

Lemma enumerate_app {A} (l l' : list A) (start : Z) :
  enumerate start (l ++ l')
  = (enumerate start l ++ enumerate (start + Z.of_nat (length l)) l')%list.
Proof.
  revert start. induction l as [|x l IH]; intros start; simpl.
  - now rewrite Z.add_0_r.
  - rewrite IH. do 3 f_equal. lia.
Qed.

Lemma length_enumerate {A} (l : list A) (start : Z) :
  length (enumerate start l) = length l.
Proof. revert start. induction l; intros; simpl; [reflexivity | now rewrite IHl]. Qed.

Lemma length_slice_to {A} (limit : Z) (l : list A) :
  (0 <= limit)%Z -> (Z.of_nat (length (slice_to limit l)) <= limit)%Z.
Proof.
  intros H. unfold slice_to. destruct (Z.leb_spec 0 limit); [|lia].
  rewrite length_firstn. lia.
Qed.

Lemma slice_to_nil {A} (limit : Z) : slice_to limit (@nil A) = [].
Proof. unfold slice_to. destruct (0 <=? limit)%Z; apply firstn_nil. Qed.

Lemma length_locate (soup : Soup) (selectors : list string) (limit : Z) :
  (0 <= limit)%Z -> (Z.of_nat (length (locate soup selectors limit)) <= limit)%Z.
Proof.
  intros H. induction selectors as [|sel rest IH]; simpl; [lia|].
  destruct (select soup sel); [exact IH | now apply length_slice_to].
Qed.

Lemma length_product_elements_of (soup : Soup) (limit : Z) :
  (0 <= limit)%Z -> (Z.of_nat (length (product_elements_of soup limit)) <= limit)%Z.
Proof.
  intros H. unfold product_elements_of.
  pose proof (length_locate soup product_selectors limit H) as L.
  destruct (locate soup product_selectors limit); [now apply length_slice_to | exact L].
Qed.

Lemma locate_no_match (soup : Soup) (selectors : list string) (limit : Z) :
  (forall sel, In sel selectors -> select soup sel = []) ->
  locate soup selectors limit = [].
Proof.
  induction selectors as [|sel rest IH]; intros H; simpl; [reflexivity|].
  rewrite (H sel (or_introl eq_refl)). apply IH. intros s I. apply H. now right.
Qed.

Section Extractor.

Variable http_get : nat -> string -> Outcome.
Variable uniform : nat -> Z -> Z -> Z.
Variable urljoin : string -> string -> result string.
Variable BeautifulSoup : string -> Soup.

Local Abbreviation extract_product_info_try := (extract_product_info_try urljoin).
Local Abbreviation extract_product_info := (extract_product_info urljoin).
Local Abbreviation collect := (collect urljoin).
Local Abbreviation records := (records urljoin).
Local Abbreviation extract := (extract urljoin).
Local Abbreviation get_page := (get_page http_get uniform).
Local Abbreviation located_blocks :=
  (located_blocks http_get uniform urljoin BeautifulSoup).
Local Abbreviation scrape_category_products_try :=
  (scrape_category_products_try http_get uniform urljoin BeautifulSoup).
Local Abbreviation scrape_category_products :=
  (scrape_category_products http_get uniform urljoin BeautifulSoup).

Lemma records_app (l l' : list (Z * Block)) :
  records (l ++ l') = (records l ++ records l')%list.
Proof. apply flat_map_app. Qed.

Lemma length_records (l : list (Z * Block)) : length (records l) <= length l.
Proof.
  induction l as [|[i b] l IH]; simpl; [lia|].
  rewrite length_app. destruct (accepted _); simpl; lia.
Qed.

(** While the limit leaves room for every element, the loop never breaks
    early and gathers the records of all of them. *)
Lemma collect_records (limit : Z) (elements : list (Z * Block)) :
  forall products,
    (Z.of_nat (length products + length elements) <= limit)%Z ->
    collect limit elements products = (products ++ records elements)%list.
Proof.
  induction elements as [|[i b] rest IH]; intros products H; simpl.
  - now rewrite app_nil_r.
  - simpl in H. destruct (accepted (extract_product_info b (i + 1))) as [r|].
    + destruct (Z.leb_spec limit (Z.of_nat (length (products ++ [r])))) as [L|L].
      * rewrite length_app in L. simpl in L.
        destruct rest; [|simpl in H; lia]. simpl. reflexivity.
      * rewrite IH; [now rewrite <- app_assoc | rewrite length_app; simpl; lia].
    + destruct (Z.leb_spec limit (Z.of_nat (length products))) as [L|L]; [lia|].
      apply IH. lia.
Qed.

Lemma extract_records (soup : Soup) (limit : Z) :
  (0 <= limit)%Z ->
  extract soup limit = records (enumerate 0 (product_elements_of soup limit)).
Proof.
  intros H. unfold Scraper.extract. rewrite collect_records; [reflexivity|].
  rewrite length_enumerate. simpl. now apply length_product_elements_of.
Qed.

(** The list returned is the one gathered from the located blocks. *)
Lemma scrape_category_products_records (href : string) (limit : Z) (w : World) :
  (0 <= limit)%Z ->
  fst (scrape_category_products href limit w)
  = records (enumerate 0 (located_blocks href limit w)).
Proof.
  intros H.
  unfold Scraper.scrape_category_products, Scraper.scrape_category_products_try,
    Scraper.located_blocks.
  destruct (urljoin base_url href) as [full_url|e]; [|reflexivity].
  destruct (get_page full_url default_retries w) as [[[response|]|e] w'];
    try reflexivity.
  simpl. now apply extract_records.
Qed.

Lemma length_located_blocks (href : string) (limit : Z) (w : World) :
  (0 <= limit)%Z -> (Z.of_nat (length (located_blocks href limit w)) <= limit)%Z.
Proof.
  intros H. unfold Scraper.located_blocks.
  destruct (urljoin base_url href) as [full_url|e]; [|simpl; lia].
  destruct (get_page full_url default_retries w) as [[[response|]|e] w'];
    try (simpl; lia).
  now apply length_product_elements_of.
Qed.


(** What an accepted record says about its block. *)
Lemma accepted_inv (b : Block) (rank : Z) (r : ProductInfo) :
  accepted (extract_product_info b rank) = Some r <->
  extract_product_info b rank = Some r /\ pi_title r <> no_title.
Proof.
  unfold accepted. destruct (extract_product_info b rank) as [info|].
  - destruct (String.eqb_spec (pi_title info) no_title) as [E|N]; split.
    + discriminate.
    + intros [[= ->] N]. now elim N.
    + intros [= ->]. now split.
    + now intros [[= ->] _].
  - split; [discriminate | now intros [? _]].
Qed.

Lemma extract_product_info_inv (b : Block) (rank : Z) (r : ProductInfo) :
  extract_product_info b rank = Some r -> pi_rank r = rank /\ find_a b <> None.
Proof.
  unfold Scraper.extract_product_info, Scraper.extract_product_info_try.
  destruct (find_a b) as [link|]; [|discriminate].
  destruct (urljoin base_url (href link)); [|discriminate].
  intros [= <-]. split; [reflexivity | discriminate].
Qed.

Lemma in_records (blocks : list Block) (start : Z) (r : ProductInfo) :
  In r (records (enumerate start blocks)) <->
  exists i b, nth_error blocks i = Some b /\
              accepted (extract_product_info b (start + Z.of_nat i + 1)) = Some r.
Proof.
  revert start. induction blocks as [|b blocks IH]; intros start; simpl.
  - split; [intros [] | intros ([|i] & b & [=] & _)].
  - rewrite in_app_iff, IH. split.
    + intros [H | (i & b' & N & A)].
      * exists 0, b. simpl. split; [reflexivity|]. rewrite Z.add_0_r.
        destruct (accepted _) as [r'|]; [|destruct H].
        destruct H as [<-|[]]. reflexivity.
      * exists (S i), b'. split; [exact N|].
        replace (start + Z.of_nat (S i) + 1)%Z with (start + 1 + Z.of_nat i + 1)%Z by lia.
        exact A.
    + intros ([|i] & b' & N & A); simpl in N.
      * injection N as <-. left. rewrite Z.add_0_r in A. simpl in A. rewrite A.
        now left.
      * right. exists i, b'. split; [exact N|].
        replace (start + 1 + Z.of_nat i + 1)%Z with (start + Z.of_nat (S i) + 1)%Z by lia.
        exact A.
Qed.

Lemma ranks_above (blocks : list Block) (start : Z) :
  Forall (fun k => start < k)%Z (map pi_rank (records (enumerate start blocks))).
Proof.
  apply Forall_forall. intros k I. apply in_map_iff in I as (r & <- & I).
  apply in_records in I as (i & b & _ & A).
  apply accepted_inv in A as [A _]. apply extract_product_info_inv in A as [-> _]. lia.
Qed.

Lemma ranks_increase (blocks : list Block) (start : Z) :
  StronglySorted Z.lt (map pi_rank (records (enumerate start blocks))).
Proof.
  revert start. induction blocks as [|b blocks IH]; intros start; simpl.
  - constructor.
  - destruct (accepted (extract_product_info b (start + 1))) as [r|] eqn:A; simpl.
    + constructor; [apply IH|].
      apply accepted_inv in A as [A _]. apply extract_product_info_inv in A as [-> _].
      apply ranks_above.
    + apply IH.
Qed.

(** C1, amended: the rank of a returned record is the 1-based position of
    its block among the located blocks, the skipped ones counted: the
    returned records are those of the located blocks that have an anchor
    and a title other than the sentinel, each with its block's position as
    rank; a block without an anchor yields no record and no record carries
    its position; the ranks returned increase strictly and lie within 1 and
    the number of located blocks. *)
Theorem ranks_are_block_positions (href : string) (limit : Z) (w : World)
    (H : (0 <= limit)%Z) :
  let blocks := located_blocks href limit w in
  let out := fst (scrape_category_products href limit w) in
  (forall r,
      In r out <->
      exists i b, nth_error blocks i = Some b /\
                  extract_product_info b (Z.of_nat i + 1) = Some r /\
                  pi_title r <> no_title)
  /\ (forall r,
      In r out ->
      (1 <= pi_rank r <= Z.of_nat (length blocks))%Z /\
      exists b, nth_error blocks (Z.to_nat (pi_rank r - 1)) = Some b /\
                find_a b <> None /\
                extract_product_info b (pi_rank r) = Some r)
  /\ (forall i b,
      nth_error blocks i = Some b -> find_a b = None ->
      forall r, In r out -> pi_rank r <> (Z.of_nat i + 1)%Z)
  /\ StronglySorted Z.lt (map pi_rank out).
Proof.
  intros blocks out. subst out. rewrite (scrape_category_products_records _ _ _ H).
  fold blocks.
  assert (Hin : forall r,
             In r (records (enumerate 0 blocks)) <->
             exists i b, nth_error blocks i = Some b /\
                         extract_product_info b (Z.of_nat i + 1) = Some r /\
                         pi_title r <> no_title).
  { intros r. rewrite in_records. split; intros (i & b & N & A); exists i, b;
      (split; [exact N|]); apply accepted_inv; exact A. }
  assert (Hpos : forall r,
             In r (records (enumerate 0 blocks)) ->
             (1 <= pi_rank r <= Z.of_nat (length blocks))%Z /\
             exists b, nth_error blocks (Z.to_nat (pi_rank r - 1)) = Some b /\
                       find_a b <> None /\
                       extract_product_info b (pi_rank r) = Some r).
  { intros r I. apply Hin in I as (i & b & N & E & _).
    destruct (extract_product_info_inv _ _ _ E) as [R A].
    assert (i < length blocks) by (apply nth_error_Some; congruence).
    split; [lia|]. exists b. rewrite R.
    replace (Z.to_nat (Z.of_nat i + 1 - 1)) with i by lia. now repeat split. }
  split; [exact Hin | split; [exact Hpos | split]].
  - intros i b N A r I R. destruct (Hpos r I) as (_ & b' & N' & A' & _).
    rewrite R in N'. replace (Z.to_nat (Z.of_nat i + 1 - 1)) with i in N' by lia.
    congruence.
  - apply ranks_increase.
Qed.

(** C8: for a limit that is not negative, [scrape_category_products]
    returns a list of at most [limit] records; whatever is raised inside
    its [try] ends in the empty list; a page on which no block selector and
    no fallback scan matches gives the empty list; and a block whose
    processing raises yields no record while the blocks before and after it
    are processed as usual. *)
Theorem extraction_total (href : string) (limit : Z) (w : World)
    (H : (0 <= limit)%Z) :
  (Z.of_nat (length (fst (scrape_category_products href limit w))) <= limit)%Z
  /\ (forall e w',
      scrape_category_products_try href limit w = (Raise e, w') ->
      scrape_category_products href limit w = ([], w'))
  /\ (forall full_url response w',
      urljoin base_url href = Ok full_url ->
      get_page full_url default_retries w = (Ok (Some response), w') ->
      (forall sel, In sel product_selectors ->
                   select (BeautifulSoup (content response)) sel = []) ->
      find_all_item_or_product (BeautifulSoup (content response)) = [] ->
      scrape_category_products href limit w = ([], w'))
  /\ (forall pre b post e,
      located_blocks href limit w = (pre ++ b :: post)%list ->
      extract_product_info_try b (Z.of_nat (length pre) + 1) = Raise e ->
      extract_product_info b (Z.of_nat (length pre) + 1) = None /\
      fst (scrape_category_products href limit w)
      = (records (enumerate 0 pre)
           ++ records (enumerate (Z.of_nat (length pre) + 1) post))%list).
Proof.
  split; [|split; [|split]].
  - rewrite (scrape_category_products_records _ _ _ H).
    pose proof (length_records (enumerate 0 (located_blocks href limit w))) as L.
    rewrite length_enumerate in L.
    pose proof (length_located_blocks href limit w H). lia.
  - intros e w' E. unfold Scraper.scrape_category_products. now rewrite E.
  - intros full_url response w' U G S F.
    unfold Scraper.scrape_category_products, Scraper.scrape_category_products_try.
    rewrite U, G. unfold Scraper.extract, product_elements_of.
    rewrite (locate_no_match _ _ _ S), F, ExtractorFacts.slice_to_nil. reflexivity.
  - intros pre b post e B R.
    assert (N : extract_product_info b (Z.of_nat (length pre) + 1) = None)
      by (unfold Scraper.extract_product_info; now rewrite R).
    split; [exact N|].
    rewrite (scrape_category_products_records _ _ _ H), B, enumerate_app, records_app.
    f_equal. cbn [enumerate Scraper.records flat_map fst snd].
    rewrite Z.add_0_l, N. reflexivity.
Qed.

End Extractor.

(** C1 as stated fails: on a page whose first block has no anchor, the one
    record returned carries rank 2, not 1. *)
Lemma scrape_category_products_rank_gap :
  ~ ranks_contiguous
      (fst (Scraper.scrape_category_products
              Examples.http_listing Examples.uniform_low Examples.urljoin_paths
              Examples.parse Examples.electronics_href 10 Examples.world0)).
Proof. unfold ranks_contiguous. vm_compute. discriminate. Qed.

(** C8 as stated fails for a negative limit: with the limit -1 the page of
    three blocks gives one record, which is more than the limit. *)
Lemma scrape_category_products_negative_limit :
  ~ (Z.of_nat (length (fst (Scraper.scrape_category_products
                              Examples.http_bad_href Examples.uniform_low
                              Examples.urljoin_paths Examples.parse
                              Examples.electronics_href (-1) Examples.world0)))
     <= -1)%Z.
Proof. intros H. vm_compute in H. apply H. reflexivity. Qed.

(** On that page, with the limit of 10: the record of the second block is
    returned with rank 2, within the two located blocks, and the ranks
    returned ascend. *)
Lemma ranks_are_block_positions_witness :
  (1 <= pi_rank Examples.echo_record_2
     <= Z.of_nat (length (Scraper.located_blocks
                            Examples.http_listing Examples.uniform_low
                            Examples.urljoin_paths Examples.parse
                            Examples.electronics_href 10 Examples.world0)))%Z
  /\ StronglySorted Z.lt
       (map pi_rank
            (fst (Scraper.scrape_category_products
                    Examples.http_listing Examples.uniform_low Examples.urljoin_paths
                    Examples.parse Examples.electronics_href 10 Examples.world0))).
Proof.
  pose proof (ranks_are_block_positions
                Examples.http_listing Examples.uniform_low Examples.urljoin_paths
                Examples.parse Examples.electronics_href 10 Examples.world0
                ltac:(lia)) as T.
  split.
  - exact (proj1 (proj1 (proj2 T) Examples.echo_record_2 (or_introl eq_refl))).
  - exact (proj2 (proj2 (proj2 T))).
Defined.

(** A page of three blocks whose second one holds a malformed link: its
    processing raises, the other two are returned with ranks 1 and 3; the
    result stays within the limit of 10. *)
Lemma extraction_total_witness :
  (Z.of_nat (length (fst (Scraper.scrape_category_products
       Examples.http_bad_href Examples.uniform_low Examples.urljoin_paths
       Examples.parse Examples.electronics_href 10 Examples.world0))) <= 10)%Z
  /\ map pi_rank (fst (Scraper.scrape_category_products
       Examples.http_bad_href Examples.uniform_low Examples.urljoin_paths
       Examples.parse Examples.electronics_href 10 Examples.world0)) = [1; 3]%Z.
Proof.
  pose proof (extraction_total
                Examples.http_bad_href Examples.uniform_low Examples.urljoin_paths
                Examples.parse Examples.electronics_href 10 Examples.world0
                ltac:(lia)) as T.
  split.
  - exact (proj1 T).
  - destruct (proj2 (proj2 (proj2 T))
                [Examples.block_echo] Examples.block_bad_href [Examples.block_echo]
                (ValueError "Invalid IPv6 URL") eq_refl eq_refl) as [_ E].
    rewrite E. reflexivity.
Defined.

End ExtractorFacts.

(* ===================================================================== *)
(** ** The store *)
(* ===================================================================== *)

Module StoreFacts.

Import Store.

Section Sorting.

Context {A : Type} (le : A -> A -> bool).
Hypothesis le_total : forall a b, le a b = true \/ le b a = true.
Hypothesis le_trans : forall a b c, le a b = true -> le b c = true -> le a c = true.

Lemma insert_by_perm (x : A) (l : list A) : Permutation (insert_by le x l) (x :: l).
Proof.
  induction l as [|y l IH]; simpl; [reflexivity|].
  destruct (le y x); [|reflexivity].
  rewrite IH. apply perm_swap.
Qed.

Lemma sort_by_perm (l : list A) : Permutation (sort_by le l) l.
Proof.
  induction l as [|x l IH]; simpl; [reflexivity|].
  rewrite insert_by_perm. now constructor.
Qed.

Lemma insert_by_sorted (x : A) (l : list A) :
  StronglySorted (fun a b => le a b = true) l ->
  StronglySorted (fun a b => le a b = true) (insert_by le x l).
Proof.
  induction 1 as [|y l S IH F]; simpl.
  - repeat constructor.
  - destruct (le y x) eqn:E.
    + constructor; [exact IH|].
      apply Forall_forall. intros z I.
      apply (Permutation_in _ (insert_by_perm x l)) in I as [<-|I]; [exact E|].
      rewrite Forall_forall in F. now apply F.
    + assert (X : le x y = true) by (destruct (le_total x y); congruence).
      constructor; [now constructor|].
      constructor; [exact X|].
      apply Forall_forall. intros z I. rewrite Forall_forall in F.
      apply (le_trans x y z X). now apply F.
Qed.

Lemma sort_by_sorted (l : list A) :
  StronglySorted (fun a b => le a b = true) (sort_by le l).
Proof.
  induction l as [|x l IH]; simpl; [constructor | now apply insert_by_sorted].
Qed.

End Sorting.

Lemma StronglySorted_weaken {A} (R R' : A -> A -> Prop) (l : list A) :
  (forall a b, R a b -> R' a b) -> StronglySorted R l -> StronglySorted R' l.
Proof.
  intros W. induction 1 as [|x l S IH F]; constructor; [exact IH|].
  eapply Forall_impl; [apply W | exact F].
Qed.

(** A list that already ascends strictly is left as it is. *)
Lemma sort_by_ascending {A} (le : A -> A -> bool) (l : list A) :
  StronglySorted (fun a b => le b a = false) l -> sort_by le l = l.
Proof.
  induction 1 as [|x l S IH F]; simpl; [reflexivity|].
  rewrite IH. destruct l as [|y l]; simpl; [reflexivity|].
  inversion F as [|? ? E _]; subst. now rewrite E.
Qed.

Lemma nulls_first_le_iff (a b : option timestamp) :
  nulls_first_le a b = true <-> nulls_first a b.
Proof.
  destruct a, b; simpl; try tauto; try (split; [discriminate | tauto]).
  apply Z.leb_le.
Qed.

Lemma nulls_first_le_total (a b : option timestamp) :
  nulls_first_le a b = true \/ nulls_first_le b a = true.
Proof. destruct a, b; simpl; auto. rewrite !Z.leb_le. lia. Qed.

Lemma nulls_first_le_trans (a b c : option timestamp) :
  nulls_first_le a b = true -> nulls_first_le b c = true -> nulls_first_le a c = true.
Proof.
  destruct a, b, c; simpl; try congruence. rewrite !Z.leb_le. lia.
Qed.

Lemma needs_update_iff (now : timestamp) (hours_old : Z) (c : Category) :
  needs_update now hours_old c = true <->
  cat_last_scraped c = None \/
  exists t, cat_last_scraped c = Some t /\ (t < now - hours hours_old)%Z.
Proof.
  unfold needs_update. destruct (cat_last_scraped c) as [t|].
  - rewrite Z.ltb_lt. split.
    + intros H. right. now exists t.
    + intros [[=] | (t' & [= <-] & H)]. exact H.
  - split; [now left | reflexivity].
Qed.

(** C6: [get_categories_needing_update] returns the categories whose
    [last_scraped] is null or earlier than the current time less
    [hours_old] hours, each as often as the table holds it and no other,
    in ascending order of [last_scraped] with null before every timestamp;
    with timestamps null, one hour ago and 48 hours ago and the default
    of 24 hours, the result is the never-scraped category followed by the
    one scraped 48 hours ago. *)
Theorem get_categories_needing_update_due_sorted
    (now : timestamp) (hours_old : Z) (db : DB) :
  Permutation (get_categories_needing_update now hours_old db)
              (filter (needs_update now hours_old) (categories db))
  /\ (forall c,
      In c (get_categories_needing_update now hours_old db) <->
      In c (categories db) /\
      (cat_last_scraped c = None \/
       exists t, cat_last_scraped c = Some t /\ (t < now - hours hours_old)%Z))
  /\ StronglySorted
       (fun c d => nulls_first (cat_last_scraped c) (cat_last_scraped d))
       (get_categories_needing_update now hours_old db)
  /\ (forall t, nulls_first None (Some t) /\ ~ nulls_first (Some t) None)
  /\ map cat_last_scraped
       (get_categories_needing_update (hours 1000) default_hours_old Examples.db0)
     = [None; Some (hours 1000 - hours 48)%Z].
Proof.
  unfold get_categories_needing_update.
  split; [|split; [|split; [|split]]].
  - apply sort_by_perm.
  - intros c. rewrite <- needs_update_iff, <- filter_In. split; intros I.
    + eapply Permutation_in; [apply sort_by_perm | exact I].
    + eapply Permutation_in; [symmetry; apply sort_by_perm | exact I].
  - eapply StronglySorted_weaken.
    + intros a b. apply nulls_first_le_iff.
    + apply (sort_by_sorted
               (fun c d => nulls_first_le (cat_last_scraped c) (cat_last_scraped d))).
      * intros a b. apply nulls_first_le_total.
      * intros a b c. apply nulls_first_le_trans.
  - intros t. simpl. tauto.
  - reflexivity.
Qed.

Lemma get_category_by_id_exists (category_id : Z) (db : DB) (c : Category) :
  get_category_by_id category_id db = Some c -> category_exists category_id db = true.
Proof.
  unfold get_category_by_id, category_exists. intros H.
  apply find_some in H as [I E]. apply existsb_exists. now exists c.
Qed.

(** One insert that passes every check appends its row. *)
Lemma exec_insert_ok (now : timestamp) (cid rank : Z) (p : ProductInfo) (db : DB) :
  clean p = true -> is_int4 cid = true -> is_int4 rank = true ->
  category_exists cid db = true ->
  exec now (insert_stmt cid (rank, p)) db
  = (Ok tt,
     {| categories := categories db;
        products := products db ++ new_rows now cid (products_id_seq db) [(rank, p)];
        products_id_seq := products_id_seq db + 1 |}).
Proof.
  intros C Ic Ir X. unfold clean in C. apply negb_true_iff in C.
  cbn [insert_stmt exec]. now rewrite C, Ic, Ir, X.
Qed.

(** An insert succeeds only when it passes every check. *)
Lemma exec_insert_inv (now : timestamp) (cid rank : Z) (p : ProductInfo) (db db1 : DB) :
  exec now (insert_stmt cid (rank, p)) db = (Ok tt, db1) ->
  clean p = true /\ is_int4 cid = true /\ is_int4 rank = true /\
  category_exists cid db = true.
Proof.
  cbn [insert_stmt exec]. unfold clean.
  destruct (_ || _ || _); [discriminate|].
  destruct (is_int4 cid), (is_int4 rank); try discriminate.
  destruct (category_exists cid db); [auto | discriminate].
Qed.

(** A refused insert raises one of three exceptions and leaves the rows of
    the working copy alone. *)
Lemma exec_insert_raise (now : timestamp) (cid rank : Z) (p : ProductInfo)
    (db db1 : DB) (e : exn) :
  exec now (insert_stmt cid (rank, p)) db = (Raise e, db1) ->
  categories db1 = categories db /\ products db1 = products db /\
  (products_id_seq db <= products_id_seq db1)%Z /\
  (exists msg, e = ValueError msg \/ e = DataError msg \/
               (e = IntegrityError msg /\ category_exists cid db = false)).
Proof.
  cbn [insert_stmt exec].
  destruct (_ || _ || _).
  { intros [= <- <-]. repeat split; try lia. eexists. left. reflexivity. }
  destruct (negb _).
  { intros [= <- <-]. repeat split; try lia. eexists. right. left. reflexivity. }
  destruct (category_exists cid db) eqn:X; [discriminate|].
  intros [= <- <-]. cbn. repeat split; try lia. eexists. right. right.
  split; reflexivity.
Qed.

(** A run of inserts that pass every check appends one row per record and
    draws one sequence value for each. *)
Lemma exec_all_inserts (now : timestamp) (cid : Z) (ranked : list (Z * ProductInfo)) :
  forall db,
    acceptable cid ranked db ->
    exec_all now (map (insert_stmt cid) ranked) db
    = (Ok tt,
       {| categories := categories db;
          products := products db ++ new_rows now cid (products_id_seq db) ranked;
          products_id_seq := products_id_seq db + Z.of_nat (length ranked) |}).
Proof.
  induction ranked as [|[rank p] rest IH]; intros db (X & Ic & F).
  - simpl. unfold ret. rewrite app_nil_r, Z.add_0_r. now destruct db.
  - inversion F as [|? ? [Ir C] F']; subst. cbn [fst snd] in *.
    cbn [map exec_all]. unfold bind.
    rewrite (exec_insert_ok now cid rank p db C Ic Ir X).
    rewrite IH by (split; [exact X | split; [exact Ic | exact F']]).
    cbn [categories products products_id_seq new_rows length].
    rewrite <- app_assoc.
    replace (Z.of_nat (S (length rest))) with (1 + Z.of_nat (length rest))%Z by lia.
    rewrite Z.add_assoc. reflexivity.
Qed.

(** A run of inserts that succeeds had nothing to insert or passed every
    check. *)
Lemma exec_all_inserts_inv (now : timestamp) (cid : Z)
    (ranked : list (Z * ProductInfo)) :
  forall db db',
    exec_all now (map (insert_stmt cid) ranked) db = (Ok tt, db') ->
    ranked = [] \/ acceptable cid ranked db.
Proof.
  induction ranked as [|[rank p] rest IH]; intros db db' H; [now left|]. right.
  cbn [map exec_all] in H. unfold bind in H.
  destruct (exec now (insert_stmt cid (rank, p)) db) as [[[]|e] db1] eqn:E;
    [|discriminate].
  pose proof (exec_insert_inv _ _ _ _ _ _ E) as (C & Ic & Ir & X).
  split; [exact X | split; [exact Ic|]]. constructor; [now split|].
  destruct (IH _ _ H) as [->|(_ & _ & F)]; [constructor | exact F].
Qed.

(** A run of inserts that is refused keeps the categories, never lowers
    the sequence, and raises one of three exceptions. *)
Lemma exec_all_inserts_raise (now : timestamp) (cid : Z)
    (ranked : list (Z * ProductInfo)) :
  forall db db' e,
    exec_all now (map (insert_stmt cid) ranked) db = (Raise e, db') ->
    categories db' = categories db /\
    (products_id_seq db <= products_id_seq db')%Z /\
    (exists msg, e = ValueError msg \/ e = DataError msg \/
                 (e = IntegrityError msg /\ category_exists cid db = false)).
Proof.
  induction ranked as [|[rank p] rest IH]; intros db db' e H; [discriminate|].
  cbn [map exec_all] in H. unfold bind in H.
  destruct (exec now (insert_stmt cid (rank, p)) db) as [[[]|e1] db1] eqn:E.
  - pose proof (exec_insert_inv _ _ _ _ _ _ E) as (C & Ic & Ir & X).
    rewrite (exec_insert_ok now cid rank p db C Ic Ir X) in E. injection E as <-.
    destruct (IH _ _ _ H) as (Hc & Hs & K). cbn in Hc, Hs.
    split; [exact Hc | split; [lia | exact K]].
  - injection H as <- <-.
    destruct (exec_insert_raise _ _ _ _ _ _ _ E) as (Hc & _ & Hs & K).
    split; [exact Hc | split; [exact Hs | exact K]].
Qed.

(** The table after the delete, for the inserts to work on. *)
Lemma acceptable_after_delete (cid : Z) (ranked : list (Z * ProductInfo)) (db : DB)
    (prods : list Product) (seq : Z) :
  acceptable cid ranked
    {| categories := categories db; products := prods; products_id_seq := seq |}
  <-> acceptable cid ranked db.
Proof. unfold acceptable, category_exists. cbn [categories]. tauto. Qed.

Lemma insert_products_eq (now : timestamp) (cid : Z) (ps : list ProductInfo) (db : DB) :
  acceptable cid (enumerate 1 ps) db ->
  insert_products now cid ps db
  = (Ok tt,
     {| categories := categories db;
        products := filter (fun p => negb (prod_category_id p =? cid)%Z) (products db)
                      ++ new_rows now cid (products_id_seq db) (enumerate 1 ps);
        products_id_seq := products_id_seq db + Z.of_nat (length (enumerate 1 ps)) |}).
Proof.
  intros H. unfold insert_products, transaction.
  cbn [exec_all]. unfold bind at 1. cbn [exec].
  rewrite exec_all_inserts
    by exact (proj2 (acceptable_after_delete cid _ db _ _) H).
  reflexivity.
Qed.

(** A replacement that is committed left the table in this state. *)
Lemma insert_products_inv (now : timestamp) (cid : Z) (ps : list ProductInfo)
    (db db' : DB) :
  insert_products now cid ps db = (Ok tt, db') ->
  (ps = [] \/ acceptable cid (enumerate 1 ps) db) /\
  db' = {| categories := categories db;
           products := filter (fun p => negb (prod_category_id p =? cid)%Z) (products db)
                         ++ new_rows now cid (products_id_seq db) (enumerate 1 ps);
           products_id_seq :=
             products_id_seq db + Z.of_nat (length (enumerate 1 ps)) |}.
Proof.
  intros H. destruct ps as [|p ps].
  - split; [now left|]. cbn in H. injection H as <-. cbn.
    now rewrite app_nil_r, Z.add_0_r.
  - assert (A : acceptable cid (enumerate 1 (p :: ps)) db).
    { unfold insert_products, transaction in H. cbn [exec_all] in H.
      unfold bind at 1 in H. cbn [exec] in H.
      destruct (exec_all now (map (insert_stmt cid) (enumerate 1 (p :: ps))) _)
        as [[[]|e] d] eqn:E; [|discriminate].
      apply exec_all_inserts_inv in E as [E|E]; [discriminate E|].
      exact (proj1 (acceptable_after_delete cid _ db _ _) E). }
    split; [now right|]. rewrite (insert_products_eq now cid _ db A) in H.
    now injection H as <-.
Qed.

(** A replacement that is refused is dropped: both tables are as before,
    the sequence is not lowered. *)
Lemma insert_products_raise (now : timestamp) (cid : Z) (ps : list ProductInfo)
    (db db' : DB) (e : exn) :
  insert_products now cid ps db = (Raise e, db') ->
  categories db' = categories db /\ products db' = products db /\
  (products_id_seq db <= products_id_seq db')%Z /\
  (exists msg, e = ValueError msg \/ e = DataError msg \/
               (e = IntegrityError msg /\ category_exists cid db = false)).
Proof.
  unfold insert_products, transaction. cbn [exec_all]. unfold bind at 1. cbn [exec].
  destruct (exec_all now (map (insert_stmt cid) (enumerate 1 ps)) _)
    as [[[]|e1] d] eqn:E; [discriminate|].
  intros [= <- <-]. apply exec_all_inserts_raise in E as (_ & Hs & K).
  cbn in *. repeat split; assumption.
Qed.



Lemma new_rows_of_category now cid last_id ranked :
  filter (fun p => (prod_category_id p =? cid)%Z) (new_rows now cid last_id ranked)
  = new_rows now cid last_id ranked.
Proof.
  revert last_id. induction ranked as [|[rank p] rest IH]; intros last_id; simpl;
    [reflexivity|]. now rewrite Z.eqb_refl, IH.
Qed.

Lemma new_rows_other_category now cid c last_id ranked :
  c <> cid ->
  filter (fun p => (prod_category_id p =? c)%Z) (new_rows now cid last_id ranked) = [].
Proof.
  intros N. revert last_id. induction ranked as [|[rank p] rest IH]; intros last_id;
    simpl; [reflexivity|].
  destruct (Z.eqb_spec cid c); [congruence | apply IH].
Qed.

Lemma filter_out_category (cid : Z) (l : list Product) :
  filter (fun p => (prod_category_id p =? cid)%Z)
         (filter (fun p => negb (prod_category_id p =? cid)%Z) l) = [].
Proof.
  induction l as [|p l IH]; simpl; [reflexivity|].
  destruct (prod_category_id p =? cid)%Z eqn:E; simpl; [exact IH | now rewrite E].
Qed.

Lemma filter_keep_category (cid c : Z) (l : list Product) :
  c <> cid ->
  filter (fun p => (prod_category_id p =? c)%Z)
         (filter (fun p => negb (prod_category_id p =? cid)%Z) l)
  = filter (fun p => (prod_category_id p =? c)%Z) l.
Proof.
  intros N. induction l as [|p l IH]; simpl; [reflexivity|].
  destruct (Z.eqb_spec (prod_category_id p) cid) as [E|E]; simpl.
  - destruct (Z.eqb_spec (prod_category_id p) c); [congruence | exact IH].
  - destruct (prod_category_id p =? c)%Z; [now rewrite IH | exact IH].
Qed.


Lemma new_rows_ranks now cid last_id (ps : list ProductInfo) (start : nat) :
  map prod_rank (new_rows now cid last_id (enumerate (Z.of_nat start) ps))
  = map (fun i => Some (Z.of_nat i)) (seq start (length ps)).
Proof.
  revert last_id start. induction ps as [|p ps IH]; intros last_id start; simpl;
    [reflexivity|].
  f_equal. replace (Z.of_nat start + 1)%Z with (Z.of_nat (S start)) by lia. apply IH.
Qed.



Lemma ranks_1_to_ascend (start n : nat) :
  StronglySorted (fun a b => nulls_last_le b a = false)
                 (map (fun i => Some (Z.of_nat i)) (seq start n)).
Proof.
  revert start. induction n as [|n IH]; intros start; simpl; constructor; [apply IH|].
  apply Forall_forall. intros k I. apply in_map_iff in I as (i & <- & I).
  apply in_seq in I. simpl. apply Z.leb_gt. lia.
Qed.

Lemma StronglySorted_map {A B} (f : A -> B) (R : B -> B -> Prop) (l : list A) :
  StronglySorted R (map f l) -> StronglySorted (fun a b => R (f a) (f b)) l.
Proof.
  induction l as [|x l IH]; simpl; intros S; [constructor|].
  inversion S as [|? ? S' F]; subst. constructor; [now apply IH|].
  rewrite Forall_forall in *. intros y I. apply F. now apply in_map.
Qed.





End StoreFacts.

(* ===================================================================== *)
(** ** Scrape and store *)
(* ===================================================================== *)

Module OrchestrationFacts.

Import Store Scraper StoreFacts.

Lemma cat_id_stamp (now : timestamp) (cid : Z) (c : Category) :
  cat_id (stamp now cid c) = cat_id c.
Proof. unfold stamp. now destruct (cat_id c =? cid)%Z. Qed.

Lemma find_stamped (now : timestamp) (cid c : Z) (cats : list Category) :
  find (fun x => (cat_id x =? c)%Z) (map (stamp now cid) cats)
  = option_map (stamp now cid) (find (fun x => (cat_id x =? c)%Z) cats).
Proof.
  induction cats as [|x cats IH]; simpl; [reflexivity|].
  rewrite cat_id_stamp. now destruct (cat_id x =? c)%Z.
Qed.

Lemma update_category_scraped_eq (now : timestamp) (cid : Z) (db : DB) :
  update_category_scraped now cid db
  = (Ok tt,
     {| categories := map (stamp now cid) (categories db);
        products := products db;
        products_id_seq := products_id_seq db |}).
Proof. reflexivity. Qed.

Section Orchestration.

Variable http_get : nat -> string -> Outcome.
Variable uniform : nat -> Z -> Z -> Z.
Variable urljoin : string -> string -> result string.
Variable BeautifulSoup : string -> Soup.

Local Abbreviation scrape_category_products :=
  (scrape_category_products http_get uniform urljoin BeautifulSoup).
Local Abbreviation scrape_and_store_category :=
  (scrape_and_store_category http_get uniform urljoin BeautifulSoup).



(** C10: for an id under which no category is stored,
    [scrape_and_store_category] returns [False] and the state it returns
    is the one it was given: no request was sent, no sleep taken, and no
    row or timestamp changed. *)
Theorem scrape_and_store_category_unknown (cid : Z) (st : State)
    (H : get_category_by_id cid (st_db st) = None) :
  scrape_and_store_category cid st = (Ok false, st).
Proof. unfold Scraper.scrape_and_store_category. now rewrite H. Qed.

End Orchestration.



(** No category has the id 99. *)
Lemma scrape_and_store_category_unknown_witness :
  Scraper.scrape_and_store_category
    Examples.http_listing Examples.uniform_low Examples.urljoin_paths
    Examples.parse 99 Examples.state0 = (Ok false, Examples.state0).
Proof.
  exact (scrape_and_store_category_unknown
           Examples.http_listing Examples.uniform_low Examples.urljoin_paths
           Examples.parse 99 Examples.state0 eq_refl).
Defined.

End OrchestrationFacts.

(* ===================================================================== *)
(** ** The fetcher under any network *)
(* ===================================================================== *)

Module FetcherBounds.

Import Scraper FetcherFacts.

Section AnyNetwork.

Variable http_get : nat -> string -> Outcome.
Variable uniform : nat -> Z -> Z -> Z.

Local Abbreviation get_page_loop := (get_page_loop http_get uniform).
Local Abbreviation get_page := (get_page http_get uniform).

(** Whatever the network does, a loop over [S m] attempts ends after some
    [k] of them, each announced by the short sleep and separated by the
    long one. *)
Lemma get_page_loop_trace (url : string) (n : nat) :
  forall m a w,
    a + S m = n ->
    exists k res w',
      get_page_loop url (Z.of_nat n) (map Z.of_nat (seq a (S m))) w = (res, w') /\
      1 <= k <= S m /\
      res <> Ok None /\
      (forall e, res = Raise e -> k = S m) /\
      w_sent w' = w_sent w + k /\
      w_log w' = (w_log w ++ rounds (k - 1) url ++ [ESleep 2 5; EGet url])%list.
Proof.
  induction m as [|m IH]; intros a w Ham.
  - cbn [seq map Scraper.get_page_loop].
    destruct (attempt_once_eq http_get uniform url w) as (w1 & E & Hs & Hl).
    rewrite E.
    pose proof (failure_of_result (http_get (w_sent w) url)) as R.
    destruct (failure_of (http_get (w_sent w) url)) as [e|].
    + rewrite R. cbn [is_request_exception].
      destruct (Z.eqb_spec (Z.of_nat a) (Z.of_nat n - 1)) as [_|Q]; [|lia].
      exists 1, (Raise (RequestError e)), w1.
      repeat split; try lia; try discriminate; assumption.
    + destruct R as (r & _ & R). rewrite R.
      exists 1, (Ok (Some r)), w1.
      repeat split; try lia; try discriminate; assumption.
  - change (seq a (S (S m))) with (a :: seq (S a) (S m)). cbn [map].
    pose proof (failure_of_result (http_get (w_sent w) url)) as R.
    destruct (failure_of (http_get (w_sent w) url)) as [e|] eqn:F.
    + destruct (get_page_loop_retry http_get uniform url n a
                  (map Z.of_nat (seq (S a) (S m))) w e F) as (w2 & E & Hs & Hl);
        [lia|].
      destruct (IH (S a) w2) as (k & res & w' & E' & Hk & Hn & Hr & Hs' & Hl'); [lia|].
      exists (S k), res, w'. rewrite E, E'.
      repeat split; try lia; try assumption.
      * intros x Hx. rewrite (Hr x Hx). reflexivity.
      * rewrite Hl', Hl. destruct k as [|k]; [lia|].
        replace (S (S k) - 1) with (S k) by lia. replace (S k - 1) with k by lia.
        cbn [rounds]. rewrite <- !app_assoc. reflexivity.
    + destruct R as (r & _ & R). cbn [Scraper.get_page_loop].
      destruct (attempt_once_eq http_get uniform url w) as (w1 & E & Hs & Hl).
      rewrite E, R. exists 1, (Ok (Some r)), w1.
      repeat split; try lia; try discriminate; assumption.
Qed.

Lemma get_page_bounded (url : string) (retries : Z) (w : World) :
  (1 <= retries)%Z ->
  exists k res w',
    get_page url retries w = (res, w') /\
    1 <= k <= Z.to_nat retries /\
    res <> Ok None /\
    (forall e, res = Raise e -> k = Z.to_nat retries) /\
    w_sent w' = w_sent w + k /\
    w_log w' = (w_log w ++ rounds (k - 1) url ++ [ESleep 2 5; EGet url])%list.
Proof.
  intros H. unfold Scraper.get_page, range.
  destruct (Z.to_nat retries) as [|m] eqn:N; [lia|].
  replace retries with (Z.of_nat (S m)) by lia.
  apply (get_page_loop_trace url (S m) m 0 w). reflexivity.
Qed.

(** X1: with at least one attempt allowed, [get_page] sends at least one
    and at most [retries] requests, all of them to the URL asked, each
    right after a sleep of 2 to 5 and any two of them separated by a sleep
    of 3 to 7; it never returns [None], and it raises only after the last
    attempt allowed. *)
Theorem get_page_trace (url : string) (retries : Z) (w : World)
    (H : (1 <= retries)%Z) :
  exists k res w',
    get_page url retries w = (res, w') /\
    1 <= k <= Z.to_nat retries /\
    res <> Ok None /\
    (forall e, res = Raise e -> k = Z.to_nat retries) /\
    w_sent w' = w_sent w + k /\
    w_log w' = (w_log w ++ rounds (k - 1) url ++ [ESleep 2 5; EGet url])%list.
Proof.
  unfold Scraper.get_page, range.
  destruct (Z.to_nat retries) as [|m] eqn:N; [lia|].
  replace retries with (Z.of_nat (S m)) by lia.
  destruct (get_page_loop_trace url (S m) m 0 w eq_refl)
    as (k & res & w' & E & Hk & Hn & Hr & Hs & Hl).
  exists k, res, w'. repeat split; try assumption; lia.
Qed.

(** X2: with no attempt allowed ([retries] zero or negative) [get_page]
    returns [None] and does nothing: no sleep, no request. *)
Theorem get_page_no_attempt (url : string) (retries : Z) (w : World)
    (H : (retries <= 0)%Z) :
  get_page url retries w = (Ok None, w).
Proof.
  unfold Scraper.get_page, range.
  replace (Z.to_nat retries) with 0 by lia. reflexivity.
Qed.

End AnyNetwork.

(** Against a server that times out, answers 503 and then 200, with five
    attempts allowed. *)
Lemma get_page_trace_witness :
  exists k res w',
    Scraper.get_page Examples.http_flaky Examples.uniform_low
      "https://www.amazon.com/zgbs" 5 Examples.world0 = (res, w') /\
    1 <= k <= 5 /\
    res <> Ok None /\
    (forall e, res = Raise e -> k = 5) /\
    w_sent w' = k /\
    w_log w' = (rounds (k - 1) "https://www.amazon.com/zgbs"
                  ++ [ESleep 2 5; EGet "https://www.amazon.com/zgbs"])%list.
Proof.
  exact (get_page_trace Examples.http_flaky Examples.uniform_low
           "https://www.amazon.com/zgbs" 5 Examples.world0 ltac:(lia)).
Defined.

Lemma get_page_no_attempt_witness :
  Scraper.get_page Examples.http_listing Examples.uniform_low
    "https://www.amazon.com/zgbs" 0 Examples.world0 = (Ok None, Examples.world0)
  /\ Scraper.get_page Examples.http_listing Examples.uniform_low
       "https://www.amazon.com/zgbs" (-2) Examples.world0 = (Ok None, Examples.world0).
Proof.
  split.
  - exact (get_page_no_attempt Examples.http_listing Examples.uniform_low
             "https://www.amazon.com/zgbs" 0 Examples.world0 ltac:(lia)).
  - exact (get_page_no_attempt Examples.http_listing Examples.uniform_low
             "https://www.amazon.com/zgbs" (-2) Examples.world0 ltac:(lia)).
Defined.

End FetcherBounds.

(* ===================================================================== *)
(** ** Field resolution on any block *)
(* ===================================================================== *)

Module FieldBehaviour.

Import PyStr PyStrFacts Scraper FieldFacts.

Lemma title_loop_no_match b sels dflt :
  (forall s, In s sels -> select_one b s = None) ->
  title_loop b sels dflt = dflt.
Proof.
  induction sels as [|s sels IH]; intros H; simpl; [reflexivity|].
  rewrite (H s (or_introl eq_refl)). apply IH. intros s' I. apply H. now right.
Qed.

Lemma title_loop_last_rejected b pre s post el dflt :
  select_one b s = Some el ->
  title_ok (get_text el) = false ->
  (forall s' e, In s' pre -> select_one b s' = Some e -> title_ok (get_text e) = false) ->
  (forall s', In s' post -> select_one b s' = None) ->
  title_loop b (pre ++ s :: post) dflt = get_text el.
Proof.
  intros Hs Hbad Hpre Hpost. revert dflt.
  induction pre as [|p pre IH]; intros dflt; simpl.
  - rewrite Hs, Hbad. now apply title_loop_no_match.
  - destruct (select_one b p) as [e|] eqn:E.
    + rewrite (Hpre p e (or_introl eq_refl) E). apply IH.
      intros s' e' I. apply Hpre. now right.
    + apply IH. intros s' e' I. apply Hpre. now right.
Qed.

(** X3: what the title loop resolves to on any block: the text of the
    first candidate that passes the test when there is one; the sentinel
    when no title selector matches at all; and, when candidates exist but
    none passes, the text of the last selector that matched. *)
Theorem title_resolution_cases (b : Block) :
  (forall pre s post el,
      title_selectors = (pre ++ s :: post)%list ->
      select_one b s = Some el ->
      title_ok (get_text el) = true ->
      (forall s' e, In s' pre -> select_one b s' = Some e ->
                    title_ok (get_text e) = false) ->
      title_loop b title_selectors no_title = get_text el)
  /\ ((forall s, In s title_selectors -> select_one b s = None) ->
      title_loop b title_selectors no_title = no_title)
  /\ (forall pre s post el,
      title_selectors = (pre ++ s :: post)%list ->
      select_one b s = Some el ->
      title_ok (get_text el) = false ->
      (forall s' e, In s' pre -> select_one b s' = Some e ->
                    title_ok (get_text e) = false) ->
      (forall s', In s' post -> select_one b s' = None) ->
      title_loop b title_selectors no_title = get_text el).
Proof.
  split; [|split].
  - intros pre s post el -> Hs Hok Hpre. now apply title_loop_first.
  - apply title_loop_no_match.
  - intros pre s post el -> Hs Hbad Hpre Hpost. now apply title_loop_last_rejected.
Qed.

Lemma no_selector_before_h2 (b : Block) (s : string) (e : Element) :
  In s [] -> select_one b s = Some e -> title_ok (get_text e) = false.
Proof. intros []. Qed.

Lemma short_title_block_other_selectors (s : string) :
  In s ["span[class*=title]"; ".s-title-instructions-style";
        "a[class*=title]"; ".a-text-normal"] ->
  select_one Examples.block_short_title s = None.
Proof.
  intros I. repeat (destruct I as [<-|I]; [reflexivity|]). destruct I.
Qed.

Lemma title_resolution_cases_witness :
  title_loop Examples.block_echo title_selectors no_title = "Echo Dot (4th Gen)"
  /\ title_loop MoreExamples.block_bare title_selectors no_title = no_title
  /\ title_loop Examples.block_short_title title_selectors no_title = "Hi".
Proof.
  split; [|split].
  - exact (proj1 (title_resolution_cases Examples.block_echo)
             [] "h2"
             ["span[class*=title]"; ".s-title-instructions-style";
              "a[class*=title]"; ".a-text-normal"]
             {| get_text := "Echo Dot (4th Gen)" |}
             eq_refl eq_refl eq_refl (no_selector_before_h2 _)).
  - exact (proj1 (proj2 (title_resolution_cases MoreExamples.block_bare))
             (fun _ _ => eq_refl)).
  - exact (proj2 (proj2 (title_resolution_cases Examples.block_short_title))
             [] "h2"
             ["span[class*=title]"; ".s-title-instructions-style";
              "a[class*=title]"; ".a-text-normal"]
             {| get_text := "Hi" |}
             eq_refl eq_refl eq_refl (no_selector_before_h2 _)
             short_title_block_other_selectors).
Defined.

(** The summary loop returns its default or the clipped text of an
    accepted candidate. *)
Lemma summary_loop_cases b sels dflt :
  summary_loop b sels dflt = dflt \/
  exists s el, In s sels /\ select_one b s = Some el /\
               summary_ok (get_text el) = true /\
               summary_loop b sels dflt = clip (get_text el).
Proof.
  induction sels as [|s sels IH]; simpl; [now left|].
  destruct (select_one b s) as [el|] eqn:E.
  - destruct (summary_ok (get_text el)) eqn:Ok.
    + right. exists s, el. repeat split; auto.
    + destruct IH as [->|(s' & el' & I & E' & Ok' & ->)]; [now left|].
      right. exists s', el'. repeat split; auto.
  - destruct IH as [->|(s' & el' & I & E' & Ok' & ->)]; [now left|].
    right. exists s', el'. repeat split; auto.
Qed.

Lemma take_drop (n : nat) (s : string) : take n s ++ drop n s = s.
Proof.
  revert s. induction n as [|n IH]; intros [|c s]; simpl; try reflexivity.
  now rewrite IH.
Qed.

Lemma length_take_le (n : nat) (s : string) : String.length (take n s) <= n.
Proof.
  revert s. induction n as [|n IH]; intros [|c s]; simpl; try lia.
  specialize (IH s). lia.
Qed.

Lemma lower_take (n : nat) (s : string) : lower (take n s) = take n (lower s).
Proof.
  revert s. induction n as [|n IH]; intros [|c s]; simpl; try reflexivity.
  now rewrite IH.
Qed.

(** A word without a dot starts [x ++ "..."] only if it starts [x]. *)
Lemma prefix_before_dots (sub x : string) :
  all_chars (fun c => negb (Ascii.eqb c ".")) sub = true ->
  prefix sub (x ++ "...") = prefix sub x.
Proof.
  revert x. induction sub as [|c sub IH]; intros x H; [now destruct x|].
  simpl in H. apply andb_true_iff in H as [Hc H].
  destruct x as [|d x].
  - simpl. destruct (ascii_dec c ".") as [->|_]; [discriminate | reflexivity].
  - simpl. destruct (ascii_dec c d); [now apply IH | reflexivity].
Qed.

Lemma contains_before_dots (sub x : string) :
  all_chars (fun c => negb (Ascii.eqb c ".")) sub = true ->
  sub <> "" ->
  contains sub (x ++ "...") = contains sub x.
Proof.
  intros H N. induction x as [|d x IH].
  - destruct sub as [|c sub]; [now elim N|]. simpl in H.
    apply andb_true_iff in H as [Hc H]. simpl.
    destruct (ascii_dec c ".") as [->|_]; [discriminate|].
    destruct sub as [|c2 sub]; reflexivity.
  - change (String d x ++ "...") with (String d (x ++ "...")).
    cbn [contains]. rewrite IH.
    change (String d (x ++ "...")) with (String d x ++ "...").
    now rewrite prefix_before_dots.
Qed.

Lemma contains_take (sub : string) (n : nat) (s : string) :
  contains sub (take n s) = true -> contains sub s = true.
Proof.
  intros H. apply contains_split in H as (p & q & E).
  rewrite <- (take_drop n s), E, !append_assoc. apply contains_occurrence.
Qed.

Lemma clip_keeps_stars_out (t : string) :
  ~ mentions_stars t -> ~ mentions_stars (clip t).
Proof.
  unfold clip. destruct (200 <? len t)%Z; [|tauto].
  rewrite <- !stars_in_lower. intros N C. apply N.
  rewrite lower_append, lower_take in C. change (lower "...") with "..." in C.
  rewrite contains_before_dots in C by (reflexivity || discriminate).
  now apply contains_take in C.
Qed.

Lemma length_clip (t : string) : (len (clip t) <= 203)%Z.
Proof.
  unfold clip, len. destruct (Z.ltb_spec 200 (Z.of_nat (String.length t))).
  - rewrite length_append. pose proof (length_take_le 200 t).
    change (String.length "...") with 3. lia.
  - lia.
Qed.

(** X4: the summary of every block is at most 203 characters long (200 of
    text and the three dots) and never holds the word stars in any letter
    case; it is the sentinel or comes from a candidate of the block that
    passed the test. *)
Theorem summary_bounded (b : Block) :
  let summary := summary_loop b desc_selectors no_description in
  (len summary <= 203)%Z
  /\ ~ mentions_stars summary
  /\ (summary = no_description \/
      exists s el, In s desc_selectors /\ select_one b s = Some el /\
                   summary_ok (get_text el) = true /\
                   summary = clip (get_text el)).
Proof.
  intros summary. subst summary.
  pose proof (summary_loop_cases b desc_selectors no_description) as C.
  split; [|split; [|exact C]].
  - destruct C as [->|(s & el & _ & _ & _ & ->)]; [vm_compute; discriminate|].
    apply length_clip.
  - destruct C as [->|(s & el & _ & _ & Ok & ->)].
    + rewrite <- stars_in_lower. vm_compute. discriminate.
    + apply clip_keeps_stars_out. now apply summary_ok_iff in Ok.
Qed.

End FieldBehaviour.

(* ===================================================================== *)
(** ** Link conversion and block location *)
(* ===================================================================== *)

Module LinkAndBlocks.

Import PyStr PyStrFacts Scraper.

(** In a canonical link the first identifier found is its own. *)
Lemma search_asin_canonical (a rest : string) :
  is_asin a -> search_asin ("https://www.amazon.com/dp/" ++ a ++ rest) = Some a.
Proof.
  intros A.
  change ("https://www.amazon.com/dp/" ++ a ++ rest)
    with ("https://www.amazon.com" ++ "/dp/" ++ a ++ rest).
  pose proof (match_asin_here_complete a rest A) as M.
  remember ("/dp/" ++ a ++ rest) as tail eqn:T.
  assert (S : search_asin tail = Some a).
  { destruct tail; cbn [search_asin]; now rewrite M. }
  cbn. exact S.
Qed.

(** X5: [convert_to_affiliate_link] is idempotent for a given tag: a link
    it has produced is returned as it is when converted again. *)
Theorem convert_to_affiliate_link_idempotent (url tag : string) :
  convert_to_affiliate_link (convert_to_affiliate_link url tag) tag
  = convert_to_affiliate_link url tag.
Proof.
  unfold convert_to_affiliate_link.
  destruct (search_asin url) as [a|] eqn:E.
  - destruct (search_asin_leftmost _ _ E) as (_ & _ & _ & A & _).
    now rewrite (search_asin_canonical a ("?tag=" ++ tag) A).
  - now rewrite E.
Qed.

Lemma locate_first_match (soup : Soup) (pre : list string) (s : string)
    (post : list string) (limit : Z) :
  (forall s', In s' pre -> select soup s' = []) ->
  select soup s <> [] ->
  locate soup (pre ++ s :: post) limit = slice_to limit (select soup s).
Proof.
  intros Hpre Hs. induction pre as [|p pre IH]; simpl.
  - destruct (select soup s); [now elim Hs | reflexivity].
  - rewrite (Hpre p (or_introl eq_refl)). apply IH. intros s' I. apply Hpre. now right.
Qed.

(** X6: with a positive limit the blocks processed are the first [limit]
    matches of the first block selector, in the program's order, that
    matches anything; matches of later selectors are not looked at. The
    scan for item and product classes is used when no selector matches. *)
Theorem block_location_priority (soup : Soup) (limit : Z) (H : (0 < limit)%Z) :
  (forall pre s post,
      product_selectors = (pre ++ s :: post)%list ->
      (forall s', In s' pre -> select soup s' = []) ->
      select soup s <> [] ->
      product_elements_of soup limit = firstn (Z.to_nat limit) (select soup s))
  /\ ((forall s, In s product_selectors -> select soup s = []) ->
      product_elements_of soup limit
      = firstn (Z.to_nat limit) (find_all_item_or_product soup)).
Proof.
  assert (Sl : forall l : list Block, slice_to limit l = firstn (Z.to_nat limit) l).
  { intros l. unfold slice_to. destruct (Z.leb_spec 0 limit); [reflexivity | lia]. }
  split.
  - intros pre s post E Hpre Hs. unfold product_elements_of.
    rewrite E, (locate_first_match soup pre s post limit Hpre Hs), Sl.
    destruct (select soup s) as [|b l]; [now elim Hs|].
    destruct (Z.to_nat limit) as [|n] eqn:N; [lia | reflexivity].
  - intros Hnone. unfold product_elements_of.
    rewrite (ExtractorFacts.locate_no_match soup product_selectors limit Hnone).
    apply Sl.
Qed.

Lemma two_layouts_first_selector (s : string) :
  In s ["li[id^=zg-ordered-list]"] -> select MoreExamples.soup_two_layouts s = [].
Proof. intros [<-|[]]. reflexivity. Qed.

(** A page matched by the second and by the fourth selector gives the
    block of the second; a page matched by none gives the blocks of the
    scan. *)
Lemma block_location_priority_witness :
  product_elements_of MoreExamples.soup_two_layouts 10 = [Examples.block_echo]
  /\ product_elements_of MoreExamples.soup_fallback_only 10
     = [Examples.block_echo; MoreExamples.block_bare].
Proof.
  split.
  - exact (proj1 (block_location_priority MoreExamples.soup_two_layouts 10 ltac:(lia))
             ["li[id^=zg-ordered-list]"] ".zg-item-immersion"
             ["div[data-component-type=s-search-result]"; ".s-result-item";
              "li[class*=zg-item]"]
             eq_refl two_layouts_first_selector ltac:(discriminate)).
  - exact (proj2 (block_location_priority MoreExamples.soup_fallback_only 10 ltac:(lia))
             (fun _ _ => eq_refl)).
Defined.

End LinkAndBlocks.

(* ===================================================================== *)
(** ** What a scrape does to the world and to the other categories *)
(* ===================================================================== *)

Module ScrapeEffects.

Import Store Scraper StoreFacts OrchestrationFacts.

Section AnyEnvironment.

Variable http_get : nat -> string -> Outcome.
Variable uniform : nat -> Z -> Z -> Z.
Variable urljoin : string -> string -> result string.
Variable BeautifulSoup : string -> Soup.

Local Abbreviation get_page := (get_page http_get uniform).
Local Abbreviation scrape_category_products :=
  (scrape_category_products http_get uniform urljoin BeautifulSoup).
Local Abbreviation scrape_and_store_category :=
  (scrape_and_store_category http_get uniform urljoin BeautifulSoup).

Lemma scrape_category_products_trace (href : string) (limit : Z) (w : World) :
  match urljoin base_url href with
  | Raise _ => scrape_category_products href limit w = ([], w)
  | Ok full_url =>
      exists k,
        1 <= k <= 3 /\
        w_sent (snd (scrape_category_products href limit w)) = w_sent w + k /\
        w_log (snd (scrape_category_products href limit w))
        = (w_log w ++ rounds (k - 1) full_url ++ [ESleep 2 5; EGet full_url])%list
  end.
Proof.
  unfold Scraper.scrape_category_products, Scraper.scrape_category_products_try.
  destruct (urljoin base_url href) as [full_url|e]; [|reflexivity].
  destruct (FetcherBounds.get_page_bounded http_get uniform full_url default_retries w)
    as (k & res & w' & E & Hk & _ & _ & Hs & Hl); [unfold default_retries; lia|].
  exists k. rewrite E. split; [exact Hk|].
  destruct res as [[r|]|e]; simpl; split; assumption.
Qed.

Lemma scrape_category_products_sent (href : string) (limit : Z) (w : World) :
  w_sent w <= w_sent (snd (scrape_category_products href limit w)) <= w_sent w + 3.
Proof.
  pose proof (scrape_category_products_trace href limit w) as T.
  destruct (urljoin base_url href); [|rewrite T; simpl; lia].
  destruct T as (k & Hk & -> & _). lia.
Qed.

(** What [scrape_and_store_category] returns, case by case. *)
Lemma scrape_and_store_category_cases (cid : Z) (st : State) :
  scrape_and_store_category cid st =
  match get_category_by_id cid (st_db st) with
  | None => (Ok false, st)
  | Some cat =>
      let out := scrape_category_products (cat_href cat) default_limit (st_world st) in
      match fst out with
      | [] => (Ok false, {| st_db := st_db st; st_world := snd out |})
      | _ :: _ =>
          match insert_products (w_clock (snd out)) cid (fst out) (st_db st) with
          | (Ok _, db1) =>
              (Ok true,
               {| st_db :=
                    {| categories := map (stamp (w_clock (snd out)) cid) (categories db1);
                       products := products db1;
                       products_id_seq := products_id_seq db1 |};
                  st_world := snd out |})
          | (Raise e, db1) => (Raise e, {| st_db := db1; st_world := snd out |})
          end
      end
  end.
Proof.
  unfold Scraper.scrape_and_store_category.
  destruct (get_category_by_id cid (st_db st)) as [cat|] eqn:C; [|reflexivity].
  destruct (scrape_category_products (cat_href cat) default_limit (st_world st))
    as [ps w'] eqn:E.
  cbn [fst snd]. destruct ps as [|p ps]; [reflexivity|].
  unfold bind, on_db, ret. cbn [st_db st_world].
  destruct (insert_products (w_clock w') cid (p :: ps) (st_db st)) as [[[]|e] d];
    reflexivity.
Qed.

(** X7: [scrape_category_products] sends between one and three requests,
    all to the category's joined URL and with the sleeps of [get_page]
    around them; when the category's reference cannot be joined to the
    base it returns the empty list without any sleep or request. *)
Theorem scrape_category_products_requests (href : string) (limit : Z) (w : World) :
  match urljoin base_url href with
  | Raise _ => scrape_category_products href limit w = ([], w)
  | Ok full_url =>
      exists k,
        1 <= k <= 3 /\
        w_sent (snd (scrape_category_products href limit w)) = w_sent w + k /\
        w_log (snd (scrape_category_products href limit w))
        = (w_log w ++ rounds (k - 1) full_url ++ [ESleep 2 5; EGet full_url])%list
  end.
Proof.
  unfold Scraper.scrape_category_products, Scraper.scrape_category_products_try.
  destruct (urljoin base_url href) as [full_url|e]; [|reflexivity].
  destruct (FetcherBounds.get_page_loop_trace http_get uniform full_url 3 2 0 w eq_refl)
    as (k & res & w' & E & Hk & _ & _ & Hs & Hl).
  exists k. unfold Scraper.get_page, range, default_retries.
  change (Z.to_nat 3) with 3. change 3%Z with (Z.of_nat 3). rewrite E.
  split; [exact Hk|]. destruct res as [[r|]|e]; simpl; split; assumption.
Qed.

(** The rows of the other categories after a replacement, committed or
    dropped. *)
Lemma insert_products_frame (now : timestamp) (cid : Z) (ps : list ProductInfo)
    (db : DB) :
  categories (snd (insert_products now cid ps db)) = categories db /\
  (forall c, c <> cid ->
     products_of c (snd (insert_products now cid ps db)) = products_of c db).
Proof.
  destruct (insert_products now cid ps db) as [[[]|e] d] eqn:E.
  - apply insert_products_inv in E as [_ ->]. cbn [snd categories].
    split; [reflexivity|]. intros c N. unfold products_of. cbn [products].
    rewrite filter_app, new_rows_other_category, app_nil_r by exact N.
    now apply filter_keep_category.
  - apply insert_products_raise in E as (Hc & Hp & _). cbn [snd].
    split; [exact Hc|]. intros c N. unfold products_of. now rewrite Hp.
Qed.

Lemma scrape_and_store_category_frame (cid : Z) (st : State) :
  exists r st',
    scrape_and_store_category cid st = (r, st') /\
    (forall c, c <> cid ->
       products_of c (st_db st') = products_of c (st_db st) /\
       get_category_by_id c (st_db st') = get_category_by_id c (st_db st)) /\
    map (fun c => (cat_id c, cat_name c, cat_href c)) (categories (st_db st'))
    = map (fun c => (cat_id c, cat_name c, cat_href c)) (categories (st_db st)) /\
    w_sent (st_world st) <= w_sent (st_world st') <= w_sent (st_world st) + 3.
Proof.
  rewrite scrape_and_store_category_cases.
  destruct (get_category_by_id cid (st_db st)) as [cat|] eqn:C.
  - pose proof (scrape_category_products_sent (cat_href cat) default_limit (st_world st))
      as Sent.
    destruct (scrape_category_products (cat_href cat) default_limit (st_world st))
      as [ps w'] eqn:E.
    cbn [fst snd] in *. destruct ps as [|p ps].
    + eexists. eexists. split; [reflexivity|]. cbn [st_db st_world].
      split; [now split | split; [reflexivity | lia]].
    + destruct (insert_products_frame (w_clock w') cid (p :: ps) (st_db st)) as [Hc Hp].
      destruct (insert_products (w_clock w') cid (p :: ps) (st_db st)) as [[[]|e] d];
        cbn [snd] in Hc, Hp.
      * eexists. eexists. split; [reflexivity|]. cbn [st_db st_world].
        split; [|split; [|lia]].
        -- intros c N. unfold get_category_by_id. cbn [categories].
           split; [now apply Hp|]. rewrite find_stamped, Hc.
           destruct (find _ (categories (st_db st))) as [x|] eqn:F; [|reflexivity].
           apply find_some in F as [_ Q]. simpl. unfold stamp.
           destruct (Z.eqb_spec (cat_id x) cid); [lia | reflexivity].
        -- cbn [categories]. rewrite Hc, map_map. apply map_ext. intros x.
           unfold stamp. now destruct (cat_id x =? cid)%Z.
      * eexists. eexists. split; [reflexivity|]. cbn [st_db st_world].
        split; [|split; [now rewrite Hc | lia]].
        intros c N. split; [now apply Hp|]. unfold get_category_by_id. now rewrite Hc.
  - exists (Ok false), st. split; [reflexivity|].
    split; [now split | split; [reflexivity | lia]].
Qed.

Lemma scrape_and_store_category_stamps (cid : Z) (st : State) :
  (fst (scrape_and_store_category cid st) = Ok true ->
   Routes.stamped cid (st_db (snd (scrape_and_store_category cid st)))) /\
  (forall c, Routes.stamped c (st_db st) ->
             Routes.stamped c (st_db (snd (scrape_and_store_category cid st)))).
Proof.
  rewrite scrape_and_store_category_cases. unfold Routes.stamped.
  destruct (get_category_by_id cid (st_db st)) as [cat|] eqn:C;
    [|split; [discriminate | auto]].
  destruct (scrape_category_products (cat_href cat) default_limit (st_world st))
    as [ps w'].
  cbn [fst snd]. destruct ps as [|p ps]; [split; [discriminate | auto]|].
  destruct (insert_products_frame (w_clock w') cid (p :: ps) (st_db st)) as [Hc _].
  destruct (insert_products (w_clock w') cid (p :: ps) (st_db st)) as [[[]|e] d];
    cbn [fst snd st_db] in *; unfold get_category_by_id in *; cbn [categories].
  - rewrite Hc. split.
    + intros _. rewrite find_stamped, C. cbn [option_map].
      apply find_some in C as [_ E]. apply Z.eqb_eq in E.
      eexists. eexists. split; [reflexivity|].
      unfold stamp. rewrite E, Z.eqb_refl. reflexivity.
    + intros c (x & t & G & L). rewrite find_stamped, G. cbn [option_map].
      unfold stamp. destruct (cat_id x =? cid)%Z.
      * eexists. eexists. split; reflexivity.
      * exists x, t. now split.
  - rewrite Hc. split; [discriminate | auto].
Qed.

(** What leaves [scrape_and_store_category] is what the insert raised for
    a stored category. *)
Lemma scrape_and_store_category_raises (cid : Z) (st : State) (e : exn) :
  fst (scrape_and_store_category cid st) = Raise e ->
  exists msg, e = ValueError msg \/ e = DataError msg.
Proof.
  rewrite scrape_and_store_category_cases.
  destruct (get_category_by_id cid (st_db st)) as [cat|] eqn:C; [|discriminate].
  destruct (scrape_category_products (cat_href cat) default_limit (st_world st))
    as [ps w'].
  cbn [fst snd]. destruct ps as [|p ps]; [discriminate|].
  destruct (insert_products (w_clock w') cid (p :: ps) (st_db st)) as [[[]|e'] d] eqn:I;
    [discriminate|].
  intros [= <-]. apply insert_products_raise in I as (_ & _ & _ & msg & K).
  exists msg. destruct K as [K|[K|[_ X]]]; [now left | now right|].
  rewrite (get_category_by_id_exists _ _ _ C) in X. discriminate X.
Qed.


End AnyEnvironment.

End ScrapeEffects.

(* ===================================================================== *)
(** ** The store at its edges *)
(* ===================================================================== *)

Module StoreBehaviour.

Import Store Catalog StoreFacts OrchestrationFacts.


Lemma insert_products_nil (now : timestamp) (cid : Z) (db : DB) :
  insert_products now cid [] db
  = (Ok tt,
     {| categories := categories db;
        products := filter (fun p => negb (prod_category_id p =? cid)%Z) (products db);
        products_id_seq := products_id_seq db |}).
Proof. reflexivity. Qed.



(** X10: [insert_products] with the empty list succeeds for any id and
    removes every row stored for it, leaving the rows of other ids, the
    categories and the id sequence alone. *)
Theorem insert_products_empty_list (now : timestamp) (cid : Z) (db : DB) :
  exists db',
    insert_products now cid [] db = (Ok tt, db') /\
    products_of cid db' = [] /\
    (forall c, c <> cid -> products_of c db' = products_of c db) /\
    categories db' = categories db /\
    products_id_seq db' = products_id_seq db.
Proof.
  eexists. split; [apply insert_products_nil|].
  unfold products_of. cbn [products categories products_id_seq].
  split; [apply filter_out_category|].
  split; [|split; reflexivity].
  intros c N. now apply filter_keep_category.
Qed.

Lemma new_rows_ids (now : timestamp) (cid : Z) (ranked : list (Z * ProductInfo)) :
  forall last_id,
    Forall (fun p => (last_id < prod_id p <= last_id + Z.of_nat (length ranked))%Z)
           (new_rows now cid last_id ranked)
    /\ NoDup (map prod_id (new_rows now cid last_id ranked)).
Proof.
  induction ranked as [|[rank p] rest IH]; intros last_id; simpl.
  - split; constructor.
  - destruct (IH (last_id + 1)%Z) as [F N]. split.
    + constructor; [simpl; lia|].
      eapply Forall_impl; [|exact F]. intros q Hq. simpl in Hq. lia.
    + constructor; [|exact N]. intros I. apply in_map_iff in I as (q & E & I).
      rewrite Forall_forall in F. specialize (F q I). simpl in F. lia.
Qed.

Lemma NoDup_map_filter {A B} (f : A -> B) (g : A -> bool) (l : list A) :
  NoDup (map f l) -> NoDup (map f (filter g l)).
Proof.
  induction l as [|x l IH]; simpl; intros N; [constructor|].
  inversion N as [|? ? Hx N']; subst.
  destruct (g x); simpl; [|now apply IH].
  constructor; [|now apply IH].
  intros I. apply Hx. apply in_map_iff in I as (y & E & I).
  apply filter_In in I as [I _]. apply in_map_iff. now exists y.
Qed.

Lemma Forall_filter {A} (P : A -> Prop) (g : A -> bool) (l : list A) :
  Forall P l -> Forall P (filter g l).
Proof.
  rewrite !Forall_forall. intros H x I. apply filter_In in I as [I _]. now apply H.
Qed.

(** X11: [insert_products] keeps the product ids in order, whether it
    succeeds or is refused: if no id occurs twice and none exceeds the last
    sequence value before the call, the same holds after it. *)
Theorem insert_products_keeps_ids (now : timestamp) (cid : Z)
    (ps : list ProductInfo) (db : DB) (H : product_ids_ok db) :
  product_ids_ok (snd (insert_products now cid ps db)).
Proof.
  destruct H as [N F]. unfold product_ids_ok.
  destruct (insert_products now cid ps db) as [[[]|e] d] eqn:E.
  - apply insert_products_inv in E as [_ ->]. cbn [snd products products_id_seq].
    destruct (new_rows_ids now cid (enumerate 1 ps) (products_id_seq db)) as [Fn Nn].
    split.
    + rewrite map_app. apply NoDup_app; [now apply NoDup_map_filter | exact Nn |].
      intros x I1 I2.
      apply in_map_iff in I1 as (p & <- & I1). apply filter_In in I1 as [I1 _].
      apply in_map_iff in I2 as (q & E & I2).
      rewrite Forall_forall in F, Fn. specialize (F p I1). specialize (Fn q I2).
      simpl in Fn. lia.
    + apply Forall_app. split.
      * apply Forall_filter. eapply Forall_impl; [|exact F]. intros p Hp. simpl in *. lia.
      * eapply Forall_impl; [|exact Fn]. intros p Hp. simpl in *. lia.
  - apply insert_products_raise in E as (_ & Hp & Hs & _). cbn [snd].
    rewrite Hp. split; [exact N|].
    eapply Forall_impl; [|exact F]. intros q Hq. simpl in *. lia.
Qed.

Lemma db0_product_ids_ok : product_ids_ok Examples.db0.
Proof.
  split.
  - simpl. repeat constructor; simpl; intuition discriminate.
  - simpl. repeat constructor; simpl; lia.
Qed.

Lemma insert_products_keeps_ids_witness :
  product_ids_ok
    (snd (insert_products (hours 1000) 1 Examples.three_products Examples.db0)).
Proof.
  exact (insert_products_keeps_ids (hours 1000) 1 Examples.three_products
           Examples.db0 db0_product_ids_ok).
Defined.

Lemma nulls_last_le_total (a b : option Z) :
  nulls_last_le a b = true \/ nulls_last_le b a = true.
Proof. destruct a, b; simpl; auto. rewrite !Z.leb_le. lia. Qed.

Lemma nulls_last_le_trans (a b c : option Z) :
  nulls_last_le a b = true -> nulls_last_le b c = true -> nulls_last_le a c = true.
Proof. destruct a, b, c; simpl; try congruence. rewrite !Z.leb_le. lia. Qed.

(** X12: [get_products_by_category] returns the rows of the category
    asked, each as often as the table holds it and no row of another
    category, in ascending order of [rank] with the rows without a rank
    last. *)
Theorem get_products_by_category_sorted (cid : Z) (db : DB) :
  Permutation (get_products_by_category cid db) (products_of cid db)
  /\ (forall p,
      In p (get_products_by_category cid db) <->
      In p (products db) /\ prod_category_id p = cid)
  /\ StronglySorted
       (fun p q => nulls_last_le (prod_rank p) (prod_rank q) = true)
       (get_products_by_category cid db)
  /\ (forall x y,
      nulls_last_le (Some x) None = true /\
      nulls_last_le None (Some x) = false /\
      (nulls_last_le (Some x) (Some y) = true <-> (x <= y)%Z)).
Proof.
  unfold get_products_by_category. split; [|split; [|split]].
  - apply sort_by_perm.
  - intros p. unfold products_of. split; intros I.
    + apply (Permutation_in _ (sort_by_perm _ _)) in I.
      apply filter_In in I as [I E]. split; [exact I | now apply Z.eqb_eq].
    + apply (Permutation_in _ (Permutation_sym (sort_by_perm _ _))).
      apply filter_In. split; [apply I | now apply Z.eqb_eq].
  - apply (sort_by_sorted (fun p q => nulls_last_le (prod_rank p) (prod_rank q))).
    + intros a b. apply nulls_last_le_total.
    + intros a b c. apply nulls_last_le_trans.
  - intros x y. simpl. repeat split; apply Z.leb_le.
Qed.

Lemma new_rows_listing now cid last_id (ps : list ProductInfo) (start : Z) :
  map (fun p => (prod_rank p, prod_title p, prod_affiliate_link p, prod_summary p))
      (new_rows now cid last_id (enumerate start ps))
  = map (fun rp => (Some (fst rp), pi_title (snd rp), pi_url (snd rp),
                    Some (pi_summary (snd rp))))
        (enumerate start ps).
Proof.
  revert last_id start. induction ps as [|p ps IH]; intros; simpl;
    [reflexivity | now rewrite IH].
Qed.

(** X13: when [insert_products] succeeds, what
    [get_products_by_category] reads back is the list passed, in its
    order: position from 1 as rank, title, link and summary of each
    record. When it raises, [get_products_by_category] reads back what it
    read before the call. *)
Theorem insert_then_get_products (now : timestamp) (cid : Z)
    (ps : list ProductInfo) (db : DB) :
  (forall db',
     insert_products now cid ps db = (Ok tt, db') ->
     map (fun p => (prod_rank p, prod_title p, prod_affiliate_link p, prod_summary p))
         (get_products_by_category cid db')
     = map (fun rp => (Some (fst rp), pi_title (snd rp), pi_url (snd rp),
                       Some (pi_summary (snd rp))))
           (enumerate 1 ps)) /\
  (forall e db',
     insert_products now cid ps db = (Raise e, db') ->
     get_products_by_category cid db' = get_products_by_category cid db).
Proof.
  split.
  - intros db' E. apply insert_products_inv in E as [_ ->].
    unfold get_products_by_category, products_of. cbn [snd products].
    rewrite filter_app, filter_out_category, new_rows_of_category. cbn [app].
    rewrite sort_by_ascending; [apply new_rows_listing|].
    apply (StronglySorted_map prod_rank (fun a b => nulls_last_le b a = false)).
    rewrite (new_rows_ranks now cid _ ps 1). apply ranks_1_to_ascend.
  - intros e db' E. apply insert_products_raise in E as (_ & Hp & _).
    unfold get_products_by_category, products_of. now rewrite Hp.
Qed.

Lemma insert_then_get_products_witness :
  map (fun p => (prod_rank p, prod_title p))
      (get_products_by_category 1
         (snd (insert_products (hours 1000) 1 Examples.three_products Examples.db0)))
  = [(Some 1%Z, "Echo Dot (4th Gen)"); (Some 2%Z, "Fire TV Stick");
     (Some 3%Z, "Kindle Paperwhite")].
Proof.
  pose proof (proj1 (insert_then_get_products (hours 1000) 1 Examples.three_products
                       Examples.db0) _ eq_refl) as R.
  apply (f_equal (map (fun q : option Z * string * string * option string =>
                         (fst (fst (fst q)), snd (fst (fst q)))))) in R.
  rewrite !map_map in R. exact R.
Defined.

Lemma in_due (now : timestamp) (h : Z) (db : DB) (c : Category) :
  In c (get_categories_needing_update now h db) <->
  In c (categories db) /\ needs_update now h c = true.
Proof.
  unfold get_categories_needing_update. split; intros I.
  - apply (Permutation_in _ (sort_by_perm _ _)) in I. now apply filter_In in I.
  - apply (Permutation_in _ (Permutation_sym (sort_by_perm _ _))).
    now apply filter_In.
Qed.

Lemma stamp_other (now : timestamp) (cid : Z) (c : Category) :
  cat_id c <> cid -> stamp now cid c = c.
Proof. intros N. unfold stamp. destruct (Z.eqb_spec (cat_id c) cid); [lia | reflexivity]. Qed.

Lemma stamp_same (now : timestamp) (cid : Z) (c : Category) :
  cat_id c = cid -> cat_last_scraped (stamp now cid c) = Some now.
Proof. intros E. unfold stamp. rewrite E, Z.eqb_refl. reflexivity. Qed.

(** X14: once [update_category_scraped] has stamped a category at [now],
    [get_categories_needing_update] at any time [now'] whose window still
    covers the stamp does not list it; whether another category is listed
    is not affected, and the products are untouched. *)
Theorem stamped_category_not_due (now now' : timestamp) (h cid : Z) (db : DB)
    (H : (now' - hours h <= now)%Z) :
  let db' := snd (update_category_scraped now cid db) in
  (forall c, In c (get_categories_needing_update now' h db') -> cat_id c <> cid)
  /\ (forall c, cat_id c <> cid ->
        (In c (get_categories_needing_update now' h db') <->
         In c (get_categories_needing_update now' h db)))
  /\ products db' = products db.
Proof.
  intros db'. subst db'. rewrite update_category_scraped_eq. cbn [snd].
  split; [|split; [|reflexivity]].
  - intros c I E. apply in_due in I as [I U]. cbn [categories] in I.
    apply in_map_iff in I as (x & <- & I). rewrite cat_id_stamp in E.
    unfold needs_update in U. rewrite (stamp_same now cid x E) in U.
    apply Z.ltb_lt in U. lia.
  - intros c N. rewrite !in_due. cbn [categories]. split; intros [I U]; split; trivial.
    + apply in_map_iff in I as (x & E & I). subst c.
      rewrite cat_id_stamp in N. now rewrite (stamp_other now cid x N).
    + apply in_map_iff. exists c. split; [now apply stamp_other | exact I].
Qed.

(** Category 3 of the example was scraped 48 hours ago: stamped now, it is
    no longer among the categories due. *)
Lemma stamped_category_not_due_witness :
  forallb (fun c => negb (cat_id c =? 3)%Z)
    (get_categories_needing_update (hours 1000) 24
       (snd (update_category_scraped (hours 1000) 3 Examples.db0))) = true.
Proof.
  apply forallb_forall. intros c I. apply negb_true_iff, Z.eqb_neq.
  exact (proj1 (stamped_category_not_due (hours 1000) (hours 1000) 24 3 Examples.db0
                  ltac:(vm_compute; discriminate)) c I).
Defined.

(** X15: [update_category_scraped] for an id that no category has does
    not raise and changes nothing. *)
Theorem update_category_scraped_unknown (now : timestamp) (cid : Z) (db : DB)
    (H : get_category_by_id cid db = None) :
  update_category_scraped now cid db = (Ok tt, db).
Proof.
  rewrite update_category_scraped_eq. f_equal. destruct db as [cats prods seq].
  unfold get_category_by_id in H. cbn [categories products products_id_seq] in *.
  f_equal. rewrite <- (map_id cats) at 2. apply map_ext_in. intros c I.
  apply stamp_other. intros E.
  apply (find_none _ _ H) in I. simpl in I. apply Z.eqb_neq in I. contradiction.
Qed.

Lemma update_category_scraped_unknown_witness :
  update_category_scraped (hours 1000) 99 Examples.db0 = (Ok tt, Examples.db0).
Proof.
  exact (update_category_scraped_unknown (hours 1000) 99 Examples.db0 eq_refl).
Defined.

End StoreBehaviour.

(* ===================================================================== *)
(** ** The category list *)
(* ===================================================================== *)

Module CatalogFacts.

Import PyStr Store Catalog StoreFacts.



Lemma fixed_columns_rename href name c :
  fixed_columns (rename href name c) = fixed_columns c.
Proof. unfold rename, fixed_columns. now destruct (String.eqb _ _). Qed.
















Lemma map_eq_app {A B} (f : A -> B) (l : list A) (x y : list A) :
  map f l = map f (x ++ y) ->
  exists l1 l2, l = (l1 ++ l2)%list /\ map f l1 = map f x /\ map f l2 = map f y.
Proof.
  revert l. induction x as [|a x IH]; intros l H.
  - exists [], l. repeat split. exact H.
  - destruct l as [|b l]; [discriminate|]. simpl in H. injection H as Hb H.
    destruct (IH _ H) as (l1 & l2 & -> & E1 & E2).
    exists (b :: l1), l2. simpl. rewrite Hb, E1. repeat split. exact E2.
Qed.

(** What one upsert does to the category rows, whatever the entry. *)
Lemma upsert_rows (now : timestamp) (c : CategoryInput) (t : Tables) :
  products (tables (snd (upsert now c t))) = products (tables t) /\
  exists kept added,
    categories (tables (snd (upsert now c t))) = (kept ++ added)%list /\
    map fixed_columns kept = map fixed_columns (categories (tables t)) /\
    Forall (fun r => cat_last_scraped r = None /\ cat_created_at r = now) added.
Proof.
  unfold upsert.
  destruct (has_nul (in_name c) || has_nul (in_href c));
    [|destruct (varchar 255 (in_name c)) as [name|];
      [destruct (varchar 500 (in_href c)) as [href|]|]].
  1,3,4: split; [reflexivity|]; exists (categories (tables t)), [];
       rewrite app_nil_r; repeat split; constructor.
  destruct (href_exists href (tables t)).
  - split; [reflexivity|]. cbn [snd tables with_categories categories].
    exists (map (rename href name) (categories (tables t))), [].
    rewrite app_nil_r. repeat split; [|constructor].
    rewrite map_map. apply map_ext. intros x. apply fixed_columns_rename.
  - destruct (category_exists _ _).
    + split; [reflexivity|]. exists (categories (tables t)), [].
      rewrite app_nil_r. repeat split; constructor.
    + split; [reflexivity|]. cbn [snd tables with_categories categories].
      eexists. eexists. split; [reflexivity|]. split; [reflexivity|].
      repeat constructor.
Qed.

Lemma upsert_all_rows (now : timestamp) (cs : list CategoryInput) :
  forall t,
    products (tables (snd (upsert_all now cs t))) = products (tables t) /\
    exists kept added,
      categories (tables (snd (upsert_all now cs t))) = (kept ++ added)%list /\
      map fixed_columns kept = map fixed_columns (categories (tables t)) /\
      Forall (fun r => cat_last_scraped r = None /\ cat_created_at r = now) added.
Proof.
  induction cs as [|c cs IH]; intros t.
  - simpl. split; [reflexivity|]. exists (categories (tables t)), [].
    rewrite app_nil_r. repeat split; constructor.
  - cbn [upsert_all].
    destruct (upsert_rows now c t) as (P1 & k1 & a1 & E1 & F1 & N1).
    destruct (upsert now c t) as [[[]|e] t1]; cbn [snd] in *.
    + destruct (IH t1) as (P2 & k2 & a2 & E2 & F2 & N2).
      split; [congruence|].
      rewrite E1 in F2. apply map_eq_app in F2 as (k2a & k2b & -> & Fa & Fb).
      exists k2a, (k2b ++ a2)%list. rewrite E2, <- app_assoc.
      split; [reflexivity|]. split; [congruence|].
      apply Forall_app. split; [|exact N2].
      clear - Fb N1. revert k2b Fb. induction N1 as [|x a1 [Hl Hc] N1 IHa];
        intros [|y k2b] Fb; try discriminate; constructor.
      * simpl in Fb. injection Fb as _ _ Hl' Hc' _. split; congruence.
      * apply IHa. simpl in Fb. now injection Fb.
    + split; [exact P1|]. exists k1, a1. repeat split; assumption.
Qed.

(** X17: whatever the list and whether the call succeeds, after
    [insert_categories] the categories that were stored are still there in
    their order with their [id], [href], [last_scraped] and [created_at];
    only names can have changed. The rows added come after them, with no
    scrape time and the time of the call as creation time. The products
    are untouched. *)
Theorem insert_categories_keeps_rows (now : timestamp)
    (cs : list CategoryInput) (t : Tables) :
  products (tables (snd (insert_categories now cs t))) = products (tables t) /\
  exists kept added,
    categories (tables (snd (insert_categories now cs t))) = (kept ++ added)%list /\
    map fixed_columns kept = map fixed_columns (categories (tables t)) /\
    Forall (fun r => cat_last_scraped r = None /\ cat_created_at r = now) added.
Proof.
  unfold insert_categories. pose proof (upsert_all_rows now cs t) as R.
  destruct (upsert_all now cs t) as [[[]|e] t']; cbn [snd tables] in *; [exact R|].
  split; [reflexivity|]. exists (categories (tables t)), [].
  rewrite app_nil_r. repeat split; constructor.
Qed.

(** The loop stops at the first entry that the driver or the server
    refuses, if not before. *)
Lemma upsert_all_refused (now : timestamp) (cs : list CategoryInput) (c : CategoryInput) :
  In c cs ->
  has_nul (in_name c) || has_nul (in_href c) = true \/
  varchar 255 (in_name c) = None \/ varchar 500 (in_href c) = None ->
  forall t, exists e, fst (upsert_all now cs t) = inr e.
Proof.
  intros I Bad. induction cs as [|c0 cs IH]; [destruct I|]. intros t.
  cbn [upsert_all]. destruct I as [->|I].
  - unfold upsert. destruct (has_nul (in_name c) || has_nul (in_href c));
      [eexists; reflexivity|].
    destruct Bad as [Bad|Bad]; [discriminate|].
    destruct (varchar 255 (in_name c)) as [name|].
    + destruct Bad as [Bad|Bad]; [discriminate|]. rewrite Bad. eexists. reflexivity.
    + eexists. reflexivity.
  - destruct (upsert now c0 t) as [[[]|e] t1]; [apply (IH I) | now exists e].
Qed.

(** X18: one entry whose name or [href] does not fit its column voids the
    whole call of [insert_categories]: it is refused and both tables are as
    they were, also for the entries before the bad one. *)
Theorem insert_categories_all_or_nothing (now : timestamp)
    (cs : list CategoryInput) (c : CategoryInput) (t : Tables)
    (I : In c cs)
    (Bad : varchar 255 (in_name c) = None \/ varchar 500 (in_href c) = None) :
  exists e t',
    insert_categories now cs t = (inr e, t') /\ tables t' = tables t.
Proof.
  destruct (upsert_all_refused now cs c I (or_intror Bad) t) as (e & E).
  unfold insert_categories.
  destruct (upsert_all now cs t) as [[[]|e'] t']; [discriminate E|].
  eexists. eexists. split; reflexivity.
Qed.

Lemma insert_categories_all_or_nothing_witness :
  exists e t',
    insert_categories (hours 1000) CatalogExamples.setup_list_too_long CatalogExamples.tables0
      = (inr e, t') /\
    tables t' = Examples.db0.
Proof.
  exact (insert_categories_all_or_nothing (hours 1000)
           CatalogExamples.setup_list_too_long
           (CatalogExamples.entry (Examples.replicate 256 "x")
                               "/Best-Sellers-Kitchen/zgbs/kitchen")
           CatalogExamples.tables0
           (or_intror (or_introl eq_refl)) (or_introl eq_refl)).
Defined.










Lemma ascii_compare_refl (a : ascii) : Ascii.compare a a = Eq.
Proof. unfold Ascii.compare. apply N.compare_refl. Qed.

(** The byte order on strings is transitive. *)
Lemma string_leb_trans (a b c : string) :
  String.leb a b = true -> String.leb b c = true -> String.leb a c = true.
Proof.
  unfold String.leb. revert b c.
  induction a as [|x a IH]; intros [|y b] [|z c]; simpl; try congruence.
  destruct (Ascii.compare x y) eqn:Cxy; try discriminate.
  - apply Ascii.compare_eq_iff in Cxy as ->.
    destruct (Ascii.compare y z) eqn:Cyz; try discriminate; [apply IH | reflexivity].
  - destruct (Ascii.compare y z) eqn:Cyz; try discriminate.
    + apply Ascii.compare_eq_iff in Cyz as <-. now rewrite Cxy.
    + unfold Ascii.compare in *. rewrite N.compare_lt_iff in Cxy, Cyz.
      assert (L : (N_of_ascii x < N_of_ascii z)%N) by lia.
      apply N.compare_lt_iff in L. now rewrite L.
Qed.

Section CollationFacts.

Variable collate_le : string -> string -> bool.
Hypothesis collate_total : forall a b, collate_le a b = true \/ collate_le b a = true.
Hypothesis collate_trans :
  forall a b c, collate_le a b = true -> collate_le b c = true -> collate_le a c = true.

(** X20: under a collation that is a total preorder, [get_all_categories]
    returns every stored category, each as often as the table holds it, in
    ascending order of [name]. *)
Theorem get_all_categories_sorted (db : DB) :
  Permutation (get_all_categories collate_le db) (categories db)
  /\ StronglySorted (fun c d => collate_le (cat_name c) (cat_name d) = true)
                    (get_all_categories collate_le db).
Proof.
  unfold get_all_categories. split; [apply sort_by_perm|].
  apply (sort_by_sorted (fun c d => collate_le (cat_name c) (cat_name d))).
  - intros a b. apply collate_total.
  - intros a b c. apply collate_trans.
Qed.

End CollationFacts.

(** In byte order the three categories of the example come out as Books,
    Electronics, Toys. *)
Lemma get_all_categories_sorted_witness :
  Permutation (get_all_categories String.leb Examples.db0) (categories Examples.db0)
  /\ map cat_name (get_all_categories String.leb Examples.db0)
     = ["Books"; "Electronics"; "Toys"].
Proof.
  split; [|reflexivity].
  exact (proj1 (get_all_categories_sorted String.leb String.leb_total
                  string_leb_trans Examples.db0)).
Defined.

End CatalogFacts.

(* ===================================================================== *)
(** ** The batch and the setup routes *)
(* ===================================================================== *)

Module RoutesFacts.

Import Store Scraper Catalog Routes StoreFacts ScrapeEffects CatalogFacts.

Section AnyEnvironment.

Variable http_get : nat -> string -> Outcome.
Variable uniform : nat -> Z -> Z -> Z.
Variable urljoin : string -> string -> result string.
Variable BeautifulSoup : string -> Soup.

Local Abbreviation scrape_and_store_category :=
  (Scraper.scrape_and_store_category http_get uniform urljoin BeautifulSoup).
Local Abbreviation scrape_batch_loop :=
  (Routes.scrape_batch_loop http_get uniform urljoin BeautifulSoup).
Local Abbreviation scrape_batch :=
  (Routes.scrape_batch http_get uniform urljoin BeautifulSoup).

(** The loop of the batch: one result per category, in order; a result
    with an error is not a success and the error is one of the insert;
    every category reported as scraped bears a scrape time. *)
Lemma scrape_batch_loop_results (cats : list Category) :
  forall results st,
    let out := scrape_batch_loop cats results st in
    map (fun r => (br_category_id r, br_name r)) (fst out)
    = (map (fun r => (br_category_id r, br_name r)) results
         ++ map (fun c => (cat_id c, cat_name c)) cats)%list /\
    (Forall (fun r => forall e, br_error r = Some e ->
                      br_success r = false /\
                      exists msg, e = ValueError msg \/ e = DataError msg) results ->
     Forall (fun r => forall e, br_error r = Some e ->
                      br_success r = false /\
                      exists msg, e = ValueError msg \/ e = DataError msg) (fst out)) /\
    (Forall (fun r => br_success r = true -> stamped (br_category_id r) (st_db st))
            results ->
     Forall (fun r => br_success r = true ->
                      stamped (br_category_id r) (st_db (snd out)))
            (fst out)).
Proof.
  induction cats as [|c cats IH]; intros results st out; subst out.
  - simpl. rewrite app_nil_r. auto.
  - cbn [Routes.scrape_batch_loop].
    pose proof (scrape_and_store_category_stamps http_get uniform urljoin BeautifulSoup
                  (cat_id c) st) as [S1 S2].
    pose proof (scrape_and_store_category_raises http_get uniform urljoin BeautifulSoup
                  (cat_id c) st) as R.
    destruct (scrape_and_store_category (cat_id c) st) as [[b|e] st1].
    + cbn [fst snd] in S1, S2.
      destruct (IH (results ++ [{| br_category_id := cat_id c; br_name := cat_name c;
                                   br_success := b; br_error := None |}])%list
                   (pause uniform 10 15 st1)) as (A & B & C).
      split; [|split].
      * rewrite A, map_app, <- app_assoc. reflexivity.
      * intros F. apply B. apply Forall_app. split; [exact F|].
        constructor; [|constructor]. cbn [br_error]. discriminate.
      * intros F. apply C. apply Forall_app. split.
        -- eapply Forall_impl; [|exact F]. intros r Hr Hs. apply S2. now apply Hr.
        -- constructor; [|constructor]. cbn [br_success br_category_id]. intros ->.
           now apply S1.
    + cbn [fst snd] in S2, R.
      destruct (IH (results ++ [{| br_category_id := cat_id c; br_name := cat_name c;
                                   br_success := false; br_error := Some e |}])%list
                   st1) as (A & B & C).
      split; [|split].
      * rewrite A, map_app, <- app_assoc. reflexivity.
      * intros F. apply B. apply Forall_app. split; [exact F|].
        constructor; [|constructor]. cbn [br_error br_success]. intros e' [= <-].
        split; [reflexivity | now apply R].
      * intros F. apply C. apply Forall_app. split.
        -- eapply Forall_impl; [|exact F]. intros r Hr Hs. apply S2. now apply Hr.
        -- constructor; [|constructor]. cbn [br_success]. discriminate.
Qed.

(** The loop of the batch: requests sent, and what it leaves alone. *)
Lemma scrape_batch_loop_frame (cats : list Category) :
  forall results st,
    let out := scrape_batch_loop cats results st in
    w_sent (st_world st) <= w_sent (st_world (snd out))
      <= w_sent (st_world st) + 3 * length cats /\
    (forall c, ~ In c (map cat_id cats) ->
       products_of c (st_db (snd out)) = products_of c (st_db st) /\
       get_category_by_id c (st_db (snd out)) = get_category_by_id c (st_db st)) /\
    map (fun c => (cat_id c, cat_name c, cat_href c)) (categories (st_db (snd out)))
    = map (fun c => (cat_id c, cat_name c, cat_href c)) (categories (st_db st)).
Proof.
  induction cats as [|c cats IH]; intros results st out; subst out.
  - simpl. repeat split; lia.
  - cbn [Routes.scrape_batch_loop].
    destruct (scrape_and_store_category_frame http_get uniform urljoin BeautifulSoup
                (cat_id c) st) as (b & st1 & E & Fr & Cols & Sent).
    rewrite E. destruct b as [b|e].
    + destruct (IH (results ++ [{| br_category_id := cat_id c; br_name := cat_name c;
                                   br_success := b; br_error := None |}])%list
                   (pause uniform 10 15 st1)) as (A & B & C).
      cbn [pause st_db st_world sleep snd w_sent] in A, B, C.
      split; [|split].
      * cbn [length]. lia.
      * intros x N. cbn [map] in N.
        destruct (B x) as [P G]; [intros I; apply N; now right|].
        destruct (Fr x) as [P1 G1]; [intros ->; apply N; now left|].
        split; congruence.
      * congruence.
    + destruct (IH (results ++ [{| br_category_id := cat_id c; br_name := cat_name c;
                                   br_success := false; br_error := Some e |}])%list
                   st1) as (A & B & C).
      split; [|split].
      * cbn [length]. lia.
      * intros x N. cbn [map] in N.
        destruct (B x) as [P G]; [intros I; apply N; now right|].
        destruct (Fr x) as [P1 G1]; [intros ->; apply N; now left|].
        split; congruence.
      * congruence.
Qed.

Lemma dict_get_truthy (key : string) (fields : list (string * Json)) (v : Json) :
  dict_get key fields = Some v -> json_truthy (JObject fields) = true.
Proof. destruct fields; [discriminate | reflexivity]. Qed.

(** X21: [scrape_batch] and the request. When [request.json] raises, or
    gives a value that is true and no object, or the limit is neither an
    integer nor null, the answer is 500 with the error and nothing is
    scraped or changed. Otherwise the answer is 200 with one result per
    category processed: the categories due at the time of the call (24
    hours), in their order (never scraped first, then oldest first), cut
    to the limit asked: 5 for a false value and for an object without
    limit, all of them for a null limit. A limit that is not negative
    bounds their number. A result that carries an error is no success and
    the error is the [ValueError] or [DataError] of the insert; every
    category reported as scraped bears a scrape time afterwards. *)
Theorem scrape_batch_results (request_json : result Json) (st : State) :
  let all_due := get_categories_needing_update (w_clock (st_world st))
                   default_hours_old (st_db st) in
  let out := scrape_batch request_json st in
  ((forall e, request_json = Raise e -> batch_categories request_json st = Raise e) /\
   (forall v, request_json = Ok v -> json_truthy v = true ->
              (forall fields, v <> JObject fields) ->
              exists msg, batch_categories request_json st = Raise (AttributeError msg)) /\
   (forall v, request_json = Ok v -> json_truthy v = false ->
              batch_categories request_json st = Ok (slice_to 5 all_due)) /\
   (forall fields, request_json = Ok (JObject fields) ->
      match dict_get "limit" fields with
      | None => batch_categories request_json st = Ok (slice_to 5 all_due)
      | Some JNull => batch_categories request_json st = Ok all_due
      | Some (JInt n) =>
          batch_categories request_json st = Ok (slice_to n all_due) /\
          ((0 <= n)%Z -> (Z.of_nat (length (slice_to n all_due)) <= n)%Z)
      | Some (JBool b) =>
          batch_categories request_json st
          = Ok (slice_to (if b then 1 else 0) all_due)
      | Some _ =>
          exists msg, batch_categories request_json st = Raise (TypeError msg)
      end)) /\
  (forall e, batch_categories request_json st = Raise e ->
     out = (BatchFailed e, st) /\ batch_status (fst out) = 500%Z) /\
  (forall due, batch_categories request_json st = Ok due ->
     exists results,
       fst out = BatchDone results (Z.of_nat (length due)) /\
       batch_status (fst out) = 200%Z /\
       map (fun r => (br_category_id r, br_name r)) results
       = map (fun c => (cat_id c, cat_name c)) due /\
       Forall (fun r => forall e, br_error r = Some e ->
                        br_success r = false /\
                        exists msg, e = ValueError msg \/ e = DataError msg) results /\
       Forall (fun r => br_success r = true ->
                        stamped (br_category_id r) (st_db (snd out))) results).
Proof.
  intros all_due out. subst out. split; [|split].
  - unfold Routes.batch_categories. fold all_due. split; [|split; [|split]].
    + intros e ->. reflexivity.
    + intros v -> T N. cbn [request_limit]. rewrite T.
      destruct v; try (eexists; reflexivity). now elim (N fields).
    + intros v -> T. cbn [request_limit]. rewrite T. reflexivity.
    + intros fields ->. cbn [request_limit].
      destruct (dict_get "limit" fields) as [limit|] eqn:G.
      * rewrite (dict_get_truthy _ _ _ G).
        destruct limit; cbn [slice_to_json]; try (eexists; reflexivity);
          try reflexivity.
        split; [reflexivity|]. intros H. now apply ExtractorFacts.length_slice_to.
      * now destruct (json_truthy (JObject fields)).
  - intros e E. unfold Routes.scrape_batch. rewrite E. now split.
  - intros due E. unfold Routes.scrape_batch. rewrite E.
    destruct (scrape_batch_loop_results due [] st) as (A & B & C).
    destruct (scrape_batch_loop due [] st) as [results st'] eqn:L.
    cbn [fst snd] in *. exists results.
    assert (Len : length results = length due).
    { apply (f_equal (@length _)) in A. cbn [map app] in A.
      rewrite !length_map in A. exact A. }
    rewrite Len.
    split; [reflexivity | split; [reflexivity | split; [exact A|]]].
    split; [apply B; constructor | apply C; constructor].
Qed.

(** X22: [scrape_batch] sends at most three requests per category
    processed; products and category rows of the categories it does not
    process are as before, and no category changes [id], [name] or
    [href]. The categories processed are those due, cut to the limit of
    the request when that is an integer, and none when the call fails
    before its loop. *)
Theorem scrape_batch_frame (request_json : result Json) (st : State) :
  let due := batch_due request_json st in
  let out := scrape_batch request_json st in
  w_sent (st_world st) <= w_sent (st_world (snd out))
    <= w_sent (st_world st) + 3 * length due /\
  (forall c, ~ In c (map cat_id due) ->
     products_of c (st_db (snd out)) = products_of c (st_db st) /\
     get_category_by_id c (st_db (snd out)) = get_category_by_id c (st_db st)) /\
  map (fun c => (cat_id c, cat_name c, cat_href c)) (categories (st_db (snd out)))
  = map (fun c => (cat_id c, cat_name c, cat_href c)) (categories (st_db st)) /\
  (forall limit, request_limit request_json = Ok (JInt limit) ->
     due = slice_to limit
             (get_categories_needing_update (w_clock (st_world st))
                default_hours_old (st_db st))) /\
  (forall e, batch_categories request_json st = Raise e -> snd out = st).
Proof.
  intros due out. subst due out. unfold Routes.scrape_batch, batch_due.
  destruct (batch_categories request_json st) as [due|e] eqn:E.
  - pose proof (scrape_batch_loop_frame due [] st) as (Sent & Fr & Cols).
    destruct (scrape_batch_loop due [] st) as [results st']. cbn [snd] in *.
    split; [exact Sent | split; [exact Fr | split; [exact Cols | split]]].
    + intros limit L. unfold batch_categories in E. rewrite L in E.
      cbn [slice_to_json] in E. now injection E as <-.
    + discriminate.
  - cbn [snd length map]. split; [lia | split; [now split | split; [reflexivity|]]].
    split; [|reflexivity].
    intros limit L. unfold batch_categories in E. rewrite L in E. discriminate E.
Qed.

End AnyEnvironment.

(** With a limit of 1 only the never-scraped category 1 is processed, and
    category 2 keeps its row. *)
Lemma scrape_batch_results_witness :
  exists results,
    fst (Routes.scrape_batch Examples.http_listing Examples.uniform_low
           Examples.urljoin_paths Examples.parse
           (Ok (JObject [("limit", JInt 1)])) Examples.state0)
    = BatchDone results 1 /\
    map br_category_id results = [1%Z].
Proof.
  pose proof (scrape_batch_results Examples.http_listing Examples.uniform_low
                Examples.urljoin_paths Examples.parse
                (Ok (JObject [("limit", JInt 1)])) Examples.state0) as T.
  cbv zeta in T. destruct T as (_ & _ & T).
  destruct (T _ eq_refl) as (results & E & _ & A & _).
  exists results. split; [exact E|].
  apply (f_equal (map fst)) in A. rewrite !map_map in A. exact A.
Defined.



End RoutesFacts.
